(** * Milky Way visualization: generators and per-frame wave updates

    A shallow embedding of the particle generators, the proximity graph
    and the per-frame height updates of
    [src/components/MilkyWayVisualization.jsx] and
    [src/components/GreatWave.jsx], with the properties the
    specification states about them; then the surface grids, the
    connection lines, the star field, the rotations and the orbital
    zones of [src/components/OrbitalZones.jsx], with further properties
    of the components.

    Numbers.  A JavaScript number is modelled as a real number, or as
    the single value [NonFin] that stands for any non-finite IEEE value
    (NaN, +Infinity, -Infinity).  Props and random draws are finite, so
    they are reals; a value becomes non-finite only through a division
    by zero, a logarithm of a non-positive number, an arc cosine
    outside [-1, 1] or a read past the end of a typed array.  Rounding
    and overflow of binary floating point and the sign of zero are not
    modelled.  Particle counts and the connection cap are integers. *)

From Stdlib Require Import Reals Lra Lia ZifyNat ZArith List String.
From stdpp Require Import base list.

Open Scope R_scope.

(** ** Numbers *)

Inductive num : Type :=
  | Fin (r : R)
  | NonFin.

#[global] Instance num_inhabited : Inhabited num := populate NonFin.

(** [a / b] in JavaScript for finite [a], [b]: a zero divisor gives
    NaN or an infinity. *)
Definition js_div (a b : R) : num :=
  if Req_dec_T b 0 then NonFin else Fin (a / b).

(** [Math.log]: -Infinity at 0, NaN below. *)
Definition Math_log (a : R) : num :=
  if Rlt_dec 0 a then Fin (ln a) else NonFin.

(** [Math.acos]: NaN outside [-1, 1]. *)
Definition Math_acos (a : R) : num :=
  if Rle_dec (-1) a then if Rle_dec a 1 then Fin (acos a) else NonFin
  else NonFin.

(** [Math.atan2 (y, x)] on finite arguments, without signed zeros. *)
Definition Math_atan2 (y x : R) : R :=
  if Rlt_dec 0 x then atan (y / x)
  else if Rlt_dec x 0 then
         if Rle_dec 0 y then atan (y / x) + PI else atan (y / x) - PI
  else if Rlt_dec 0 y then PI / 2
  else if Rlt_dec y 0 then - (PI / 2)
  else 0.

(** [Math.floor] of a finite number. *)
Definition Math_floor (a : R) : R := IZR (Zfloor a).

(** [Math.min] of two finite numbers. *)
Definition Math_min (a b : R) : R := Rmin a b.

(** [a < b] on finite numbers, as a boolean. *)
Definition ltb (a b : R) : bool := if Rlt_dec a b then true else false.

(** A number computed from a possibly non-finite operand.  It is used
    below only where every path from the operand to the number goes
    through [+], [-], [*], [sin], [cos], [Math.sqrt] or [Math.log];
    none of them gives a finite number back from NaN, nor from an
    infinity where used ([sin] and [cos] give NaN, and NaN * 0 is
    NaN), so the number is [NonFin] again. *)
Definition bind (a : num) (k : R -> num) : num :=
  match a with
  | Fin r => k r
  | NonFin => NonFin
  end.

Notation "'let*' x ':=' a 'in' k" := (bind a (fun x => k))
  (at level 10, x name, a at level 100, k at level 200).

Definition lift1 (f : R -> R) (a : num) : num :=
  let* x := a in Fin (f x).

Definition lift2 (f : R -> R -> R) (a b : num) : num :=
  let* x := a in let* y := b in Fin (f x y).

(** ** Buffers

    A [Float32Array]: a list of numbers of fixed length.  A read past
    the end ([positions !!! i]) is [undefined], which arithmetic turns
    into NaN; a write past the end ([<[i := v]> positions]) is
    ignored. *)

Abbreviation buffer := (list num).

Inductive result (A : Type) : Type :=
  | Ok (a : A)
  | RangeError.
Arguments Ok {A} a.
Arguments RangeError {A}.

(** [new Float32Array(n)] for an integer [n]: the length goes through
    ToIndex, which throws outside [0, 2^53 - 1]; the array is zero
    filled. *)
Definition Float32Array_new (n : Z) : result buffer :=
  if (n <? 0)%Z || (2 ^ 53 - 1 <? n)%Z then RangeError
  else Ok (replicate (Z.to_nat n) (Fin 0)).

(** [for (let i = 0; i < n; i++) s = body(i, s)]. *)
Definition for_loop {S : Type} (n : nat) (body : nat -> S -> S) (s : S) : S :=
  foldl (fun s i => body i s) s (seq 0 n).

(** [array.forEach((a, idx) => s = f(a, idx, s))]. *)
Definition forEach {A S : Type} (l : list A) (f : A -> nat -> S -> S) (s : S)
  : S :=
  for_loop (length l)
           (fun idx s => match l !! idx with Some a => f a idx s | None => s end)
           s.

(** [new Uint16Array(array)] of integers: each is stored modulo 2^16. *)
Definition Uint16Array_from (a : list Z) : list Z :=
  map (fun v => (v mod 2 ^ 16)%Z) a.

(** The geometry a surface memoises: [new Float32Array(positions)],
    [new Float32Array(normals)] and [new Uint16Array(indices)]. *)
Record Grid : Type := {
  grid_positions : buffer;
  grid_normals : buffer;
  grid_indices : list Z
}.

(** The index loops shared, word for word, by both surfaces:
    [for i < segments, for j < segments] push the two triangles
    [(a, b, a + 1)] and [(b, b + 1, a + 1)] of cell [(i, j)]. *)
Definition triangles (segments : Z) : list Z :=
  for_loop (Z.to_nat segments)
    (fun i =>
       for_loop (Z.to_nat segments)
         (fun j indices =>
            let a := (Z.of_nat i * (segments + 1) + Z.of_nat j)%Z in
            let b := (a + segments + 1)%Z in
            (indices ++ [a; b; (a + 1)%Z]) ++ [b; (b + 1)%Z; (a + 1)%Z]))
    [].

(** ** WaveField (dark-matter surface), MilkyWayVisualization.jsx *)

Module WaveField.

(** Lines 194-199: the four waves at a vertex. *)
Definition height (x z time waveIntensity : R) : R :=
  let wave1 := sin ((x * 0.1) + time) * 2 in
  let wave2 := sin ((z * 0.1) + time * 0.6) * 2 in
  let wave3 := sin ((x * 0.05 + z * 0.05) + time * 0.8) * 3 in
  let wave4 := sin (sqrt (x * x + z * z) * 0.1 - time * 1.2) * 1.5 in
  (wave1 + wave2 + wave3 + wave4) * waveIntensity.

(** Lines 191-199: one iteration at offset [i]. *)
Definition body (time waveIntensity : R) (i : nat) (positions : buffer)
  : buffer :=
  let x := positions !!! i in
  let z := positions !!! (i + 2)%nat in
  <[(i + 1)%nat := lift2 (fun x z => height x z time waveIntensity) x z]>
    positions.

(** Lines 190-200: [for (i = 0; i < positions.length; i += 3)]; the
    k-th iteration runs at offset [3 * k]. *)
Definition update (time waveIntensity : R) (positions : buffer) : buffer :=
  for_loop ((length positions + 2) / 3)%nat
           (fun k => body time waveIntensity (3 * k)%nat) positions.

(** Lines 185-205: the frame callback.  [meshRef] is [None] while the
    mesh is not mounted.  [computeVertexNormals] rewrites the normal
    attribute only. *)
Definition useFrame (elapsedTime waveSpeed waveIntensity : R)
           (meshRef : option buffer) : option buffer :=
  match meshRef with
  | Some positions =>
      let time := elapsedTime * waveSpeed in
      Some (update time waveIntensity positions)
  | None => None
  end.

(** Lines 157-166: the vertex loops, [for i <= segments, for j <=
    segments], pushing a position and a normal per vertex. *)
Definition vertices (segments : Z) : list num * list num :=
  for_loop (Z.to_nat (segments + 1))
    (fun i =>
       for_loop (Z.to_nat (segments + 1))
         (fun j '(positions, normals) =>
            let x := lift1 (fun q => (q - 0.5) * 100)
                           (js_div (INR i) (IZR segments)) in
            let z := lift1 (fun q => (q - 0.5) * 100)
                           (js_div (INR j) (IZR segments)) in
            let y := Fin 0 in
            (positions ++ [x; y; z], normals ++ [Fin 0; Fin 1; Fin 0])))
    ([], []).

(** Lines 151-183: the memoised geometry. *)
Definition useMemo (count : Z) : Grid :=
  let segments := count in
  let '(positions, normals) := vertices segments in
  {| grid_positions := positions;
     grid_normals := normals;
     grid_indices := Uint16Array_from (triangles segments) |}.

(** The specification's formula (section 4.2), for comparison. *)
Definition spec_height (x z elapsedTime waveSpeed I : R) : R :=
  let t := elapsedTime * waveSpeed in
  I * (sin (0.1 * x + t) + sin (0.1 * z + 0.6 * t)
       + 1.5 * sin (0.05 * x + 0.05 * z + 0.8 * t)
       + 0.75 * sin (0.1 * sqrt (x * x + z * z) - 1.2 * t)).

End WaveField.

(** ** Random numbers

    [Math.random] is an injected source: [rng n] is the value of the
    n-th call, and a computation threads the number of calls made so
    far. *)

Definition Rand (A : Type) : Type := (nat -> R) -> nat -> A * nat.

Definition ret {A : Type} (a : A) : Rand A := fun _ n => (a, n).

Definition rbind {A B : Type} (m : Rand A) (k : A -> Rand B) : Rand B :=
  fun rng n => let (a, n') := m rng n in k a rng n'.

Notation "'let!' x ':=' m 'in' k" := (rbind m (fun x => k))
  (at level 10, x name, m at level 100, k at level 200).

Definition Math_random : Rand R := fun rng n => (rng n, S n).

(** [for (let i = 0; i < n; i++) s = body(i, s)] with random draws in
    the body. *)
Definition for_rand {S : Type} (n : nat) (body : nat -> S -> Rand S) (s : S)
  : Rand S :=
  fun rng c => for_loop n (fun i sc => body i (fst sc) rng (snd sc)) (s, c).

(** What [Math.random] promises: every draw lies in [0, 1). *)
Definition unit_source (rng : nat -> R) : Prop := forall n, 0 <= rng n < 1.

(** ** three.js

    [THREE.Color] is not part of this repository: its conversion from
    hue, saturation and lightness and the hue of a parsed colour string
    are taken as parameters. *)

Record Color : Type := { color_r : R; color_g : R; color_b : R }.

Record Three : Type := {
  setHSL : R -> R -> R -> Color;
  getHSL_h : string -> R
}.

(** [THREE.Vector3] and its [distanceTo]. *)
Record Vector3 : Type := { vx : R; vy : R; vz : R }.

#[global] Instance Vector3_inhabited : Inhabited Vector3 :=
  populate {| vx := 0; vy := 0; vz := 0 |}.

Definition distanceTo (a b : Vector3) : R :=
  let dx := vx a - vx b in
  let dy := vy a - vy b in
  let dz := vz a - vz b in
  sqrt (dx * dx + dy * dy + dz * dz).

(** A particle set: the position and colour buffers handed to
    [<Points>]. *)
Record ParticleSet : Type := { positions : buffer; colors : buffer }.

(** [colors[i * 3] = color.r; ...]. *)
Definition write_color (i : nat) (color : Color) (colors : buffer) : buffer :=
  <[(i * 3 + 2)%nat := Fin (color_b color)]>
    (<[(i * 3 + 1)%nat := Fin (color_g color)]>
       (<[(i * 3)%nat := Fin (color_r color)]> colors)).

(** [positions[i * 3] = x; ...]. *)
Definition write_position (i : nat) (x y z : num) (positions : buffer)
  : buffer :=
  <[(i * 3 + 2)%nat := z]>
    (<[(i * 3 + 1)%nat := y]> (<[(i * 3)%nat := x]> positions)).

(** ** Galaxy, MilkyWayVisualization.jsx lines 24-100 *)

Module Galaxy.
Section Particles.

Variable three : Three.
Variables galaxyRadius armCount barLength bulgeSize spiralTightness : R.

(** Lines 38-43: the bulge branch. *)
Definition bulge (radius : R) : Rand (num * num * num) :=
  let! u := Math_random in
  let phi := Math_acos (2 * u - 1) in
  let! u := Math_random in
  let theta := u * PI * 2 in
  let! u := Math_random in
  let r := radius * (0.3 + u * 0.7) in
  ret (lift1 (fun phi => r * sin phi * cos theta) phi,
       lift1 (fun phi => r * sin phi * sin theta * 0.3) phi,
       lift1 (fun phi => r * cos phi) phi).

(** Lines 46-64: the spiral-arm branch. *)
Definition spiral (angle radius : R) : Rand (num * num * num) :=
  let normalizedRadius :=
    js_div (radius - bulgeSize) (galaxyRadius - bulgeSize) in
  let barInfluence :=
    if ltb radius barLength
    then lift1 (fun nr => cos (angle * 2) * (1 - nr)) normalizedRadius
    else Fin 0 in
  let armIndex := Math_floor ((angle / (PI * 2)) * armCount) in
  let armAngle := let* q := js_div armIndex armCount in Fin (q * PI * 2) in
  let spiralAngle :=
    let* a := armAngle in
    let* q := js_div radius bulgeSize in
    let* l := Math_log q in
    Fin (a + l * spiralTightness) in
  let finalAngle := lift2 (fun s b => s + b * 0.3) spiralAngle barInfluence in
  let x := lift1 (fun f => cos f * radius) finalAngle in
  let z := lift1 (fun f => sin f * radius) finalAngle in
  let! u := Math_random in
  let y := lift1 (fun nr => (u - 0.5) * 0.4 * (1 - nr * 0.5))
                 normalizedRadius in
  ret (x, y, z).

(** Lines 31-70: where one star is placed. *)
Definition place : Rand (num * num * num) :=
  let! u := Math_random in
  let angle := u * PI * 2 in
  let! u := Math_random in
  let radius := u * galaxyRadius in
  let! p := (if ltb radius bulgeSize then bulge radius
             else spiral angle radius) in
  let '(x, y, z) := p in
  let! u := Math_random in
  let x := lift1 (fun x => x + (u - 0.5) * 0.3) x in
  let! u := Math_random in
  let y := lift1 (fun y => y + (u - 0.5) * 0.2) y in
  let! u := Math_random in
  let z := lift1 (fun z => z + (u - 0.5) * 0.3) z in
  ret (x, y, z).

(** Lines 77-91: the colour of a star at [(x, _, z)].  A non-finite
    [distanceFromCenter / galaxyRadius] is NaN or +Infinity here (the
    distance is not negative); [Math.min] leaves NaN or 1, and both
    comparisons fail, as they do for [NonFin]. *)
Definition star_color (x z : num) : Rand Color :=
  let distanceFromCenter := lift2 (fun x z => sqrt (x * x + z * z)) x z in
  let normalizedDistance :=
    let* d := distanceFromCenter in
    let* q := js_div d galaxyRadius in
    Fin (Math_min q 1) in
  let below (c : R) :=
    match normalizedDistance with Fin d => ltb d c | NonFin => false end in
  if below 0.3 then
    let! u1 := Math_random in
    let! u2 := Math_random in
    let! u3 := Math_random in
    ret (setHSL three (0.1 + u1 * 0.05) (0.7 + u2 * 0.2) (0.6 + u3 * 0.3))
  else if below 0.6 then
    let! u1 := Math_random in
    let! u2 := Math_random in
    let! u3 := Math_random in
    ret (setHSL three (0.08 + u1 * 0.1) (0.3 + u2 * 0.3) (0.7 + u3 * 0.2))
  else
    let! u1 := Math_random in
    let! u2 := Math_random in
    let! u3 := Math_random in
    ret (setHSL three (0.55 + u1 * 0.1) (0.6 + u2 * 0.3) (0.5 + u3 * 0.3)).

(** Lines 29-97: one iteration of the loop. *)
Definition body (i : nat) (ps : ParticleSet) : Rand ParticleSet :=
  let! p := place in
  let '(x, y, z) := p in
  let! color := star_color x z in
  ret {| positions := write_position i x y z (positions ps);
         colors := write_color i color (colors ps) |}.

(** Lines 24-100: the memoised particle set. *)
Definition useMemo (particleCount : Z) : Rand (result ParticleSet) :=
  let count := particleCount in
  match Float32Array_new (count * 3), Float32Array_new (count * 3) with
  | Ok positions, Ok colors =>
      let! ps := for_rand (Z.to_nat count) body
                          {| positions := positions; colors := colors |} in
      ret (Ok ps)
  | _, _ => ret RangeError
  end.

End Particles.

(** Lines 102-106: the frame callback turns the group about Y.
    [galaxyRef] holds [rotation.y], or nothing while not mounted. *)
Definition useFrame (rotationSpeed delta : R) (galaxyRef : option R)
  : option R :=
  match galaxyRef with
  | Some rotation_y => Some (rotation_y + rotationSpeed * delta)
  | None => None
  end.

End Galaxy.

(** ** WaveParticles, MilkyWayVisualization.jsx lines 245-319 *)

Module WaveParticles.

(** *** Lines 283-295: the proximity graph *)
Section Connections.

Variable particlePositions : list Vector3.
Variable connectionDistance : R.
Variable maxConnections : Z.

(** One vector is pushed per particle (line 272), so the loops'
    bound [count] is the length of [particlePositions]. *)
Definition count : nat := length particlePositions.

(** [connectionLines.length >= maxConnections]. *)
Definition full (connectionLines : list (nat * nat)) : bool :=
  (maxConnections <=? Z.of_nat (length connectionLines))%Z.

(** Lines 287-293: the inner loop from [j], with [n] values of [j]
    left below [count]. *)
Fixpoint inner (i j n : nat) (connectionLines : list (nat * nat))
  : list (nat * nat) :=
  match n with
  | O => connectionLines
  | S n' =>
      let distance :=
        distanceTo (particlePositions !!! i) (particlePositions !!! j) in
      if ltb distance connectionDistance then
        let connectionLines := connectionLines ++ [(i, j)] in
        if full connectionLines then connectionLines
        else inner i (S j) n' connectionLines
      else inner i (S j) n' connectionLines
  end.

(** Lines 286-295: the outer loop from [i], with [n] values of [i]
    left below [count]. *)
Fixpoint outer (i n : nat) (connectionLines : list (nat * nat))
  : list (nat * nat) :=
  match n with
  | O => connectionLines
  | S n' =>
      let connectionLines :=
        inner i (S i) (count - S i) connectionLines in
      if full connectionLines then connectionLines
      else outer (S i) n' connectionLines
  end.

Definition connections : list (nat * nat) := outer 0 count [].

End Connections.

(** *** Lines 257-298: the memoised cloud *)
Section Cloud.

Variable three : Three.
Variable particleColor : string.

(** Lines 264-280: one iteration of the generation loop. *)
Definition body (i : nat) (st : ParticleSet * list Vector3)
  : Rand (ParticleSet * list Vector3) :=
  let '(ps, particlePositions) := st in
  let! u := Math_random in
  let x := (u - 0.5) * 100 in
  let! u := Math_random in
  let y := (u - 0.5) * 30 in
  let! u := Math_random in
  let z := (u - 0.5) * 100 in
  let positions := write_position i (Fin x) (Fin y) (Fin z) (positions ps) in
  let particlePositions :=
    particlePositions ++ [{| vx := x; vy := y; vz := z |}] in
  let hue := getHSL_h three particleColor in
  let! u1 := Math_random in
  let! u2 := Math_random in
  let color := setHSL three (hue + (u1 - 0.5) * 0.1) 0.8 (0.3 + u2 * 0.2) in
  ret ({| positions := positions;
          colors := write_color i color (colors ps) |},
       particlePositions).

Definition useMemo (count : Z) (connectionDistance : R)
           (maxConnections : Z)
  : Rand (result (ParticleSet * list (nat * nat))) :=
  match Float32Array_new (count * 3), Float32Array_new (count * 3) with
  | Ok positions, Ok colors =>
      let! st := for_rand (Z.to_nat count) body
                   ({| positions := positions; colors := colors |}, []) in
      let '(ps, particlePositions) := st in
      ret (Ok (ps, connections particlePositions connectionDistance
                               maxConnections))
  | _, _ => ret RangeError
  end.

End Cloud.

(** *** Lines 300-319: the frame callback *)

(** Lines 310-314: the three waves at a particle. *)
Definition height (x z time waveIntensity : R) : R :=
  let wave1 := sin ((x * 0.1 + z * 0.1) + time) * waveIntensity in
  let wave2 :=
    sin ((x * 0.05 - z * 0.05) + time * 0.6) * (waveIntensity * 0.6) in
  let wave3 :=
    sin (sqrt (x * x + z * z) * 0.1 - time * 0.8) * (waveIntensity * 0.4) in
  wave1 + wave2 + wave3.

(** Lines 306-314: one iteration. *)
Definition step (time waveIntensity : R) (i : nat) (positions : buffer)
  : buffer :=
  let i3 := (i * 3)%nat in
  let x := positions !!! i3 in
  let z := positions !!! (i3 + 2)%nat in
  <[(i3 + 1)%nat := lift2 (fun x z => height x z time waveIntensity) x z]>
    positions.

Definition update (count : Z) (time waveIntensity : R) (positions : buffer)
  : buffer :=
  for_loop (Z.to_nat count) (step time waveIntensity) positions.

(** [particlesRef] is [None] while the points are not mounted; the
    geometry it reaches holds both buffers, and only the position
    array is written. *)
Definition useFrame (count : Z) (elapsedTime waveSpeed waveIntensity : R)
           (particlesRef : option ParticleSet) : option ParticleSet :=
  match particlesRef with
  | Some ps =>
      let time := elapsedTime * waveSpeed in
      Some {| positions := update count time waveIntensity (positions ps);
              colors := colors ps |}
  | None => None
  end.

(** *** Lines 321-351: the connection lines *)

(** Lines 322-325: the line buffer, six numbers per connection. *)
Definition lineGeometry (connections : list (nat * nat)) : result buffer :=
  Float32Array_new (Z.of_nat (length connections) * 6).

(** Lines 335-347: the endpoints of connection [idx]. *)
Definition line_step (particlePositions : buffer) (c : nat * nat) (idx : nat)
           (linePositions : buffer) : buffer :=
  let '(i, j) := c in
  let i3 := (i * 3)%nat in
  let j3 := (j * 3)%nat in
  let lineIdx := (idx * 6)%nat in
  let linePositions := <[lineIdx := particlePositions !!! i3]> linePositions in
  let linePositions :=
    <[(lineIdx + 1)%nat := particlePositions !!! (i3 + 1)%nat]> linePositions in
  let linePositions :=
    <[(lineIdx + 2)%nat := particlePositions !!! (i3 + 2)%nat]> linePositions in
  let linePositions :=
    <[(lineIdx + 3)%nat := particlePositions !!! j3]> linePositions in
  let linePositions :=
    <[(lineIdx + 4)%nat := particlePositions !!! (j3 + 1)%nat]> linePositions in
  <[(lineIdx + 5)%nat := particlePositions !!! (j3 + 2)%nat]> linePositions.

(** Lines 330-351: the second frame callback, gated by both refs. *)
Definition useFrame_lines (connections : list (nat * nat))
           (particlesRef : option ParticleSet) (lineRef : option buffer)
  : option buffer :=
  match particlesRef, lineRef with
  | Some ps, Some linePositions =>
      let particlePositions := positions ps in
      Some (forEach connections (line_step particlePositions) linePositions)
  | _, _ => lineRef
  end.

End WaveParticles.

(** ** GreatWave, GreatWave.jsx lines 9-99 *)

Module GreatWave.

(** Lines 64-76: the displacement at a finite point. *)
Definition displacement (x z time waveAmplitude waveLength waveSpeed : R)
  : num :=
  let distance := sqrt (x * x + z * z) in
  let* q := js_div distance waveLength in
  let wavePhase := q - (time * waveSpeed) in
  let waveValue := sin (wavePhase * PI * 2) * waveAmplitude in
  let angle := Math_atan2 z x in
  let angularWave :=
    sin (angle * 2 + time * waveSpeed * 0.5) * waveAmplitude * 0.3 in
  Fin (waveValue + angularWave).

(** Lines 59-76: one iteration. *)
Definition step (time waveAmplitude waveLength waveSpeed : R) (i : nat)
           (positions : buffer) : buffer :=
  let i3 := (i * 3)%nat in
  let y :=
    let* x := positions !!! i3 in
    let* z := positions !!! (i3 + 2)%nat in
    displacement x z time waveAmplitude waveLength waveSpeed in
  <[(i3 + 1)%nat := y]> positions.

Definition update (particleCount : Z)
           (time waveAmplitude waveLength waveSpeed : R)
           (positions : buffer) : buffer :=
  for_loop (Z.to_nat particleCount)
           (step time waveAmplitude waveLength waveSpeed) positions.

(** Lines 51-81: the frame callback, gated by the ref and [showWave]. *)
Definition useFrame (particleCount : Z) (showWave : bool)
           (elapsedTime waveAmplitude waveLength waveSpeed : R)
           (particlesRef : option ParticleSet) : option ParticleSet :=
  match particlesRef with
  | Some ps =>
      if showWave then
        let time := elapsedTime in
        Some {| positions :=
                  update particleCount time waveAmplitude waveLength
                         waveSpeed (positions ps);
                colors := colors ps |}
      else Some ps
  | None => None
  end.

(** Lines 21-49: the memoised particle set. *)
Section Particles.

Variable three : Three.
Variable galaxyRadius : R.

Definition body (i : nat) (ps : ParticleSet) : Rand ParticleSet :=
  let! u := Math_random in
  let angle := u * PI * 2 in
  let! u := Math_random in
  let radius := (0.6 + u * 0.7) * galaxyRadius in
  let x := cos angle * radius in
  let z := sin angle * radius in
  let y := 0 in
  let! u1 := Math_random in
  let! u2 := Math_random in
  let color := setHSL three (0.05 + u1 * 0.1) 0.7 (0.5 + u2 * 0.3) in
  ret {| positions :=
           write_position i (Fin x) (Fin y) (Fin z) (positions ps);
         colors := write_color i color (colors ps) |}.

Definition useMemo (particleCount : Z) : Rand (result ParticleSet) :=
  match Float32Array_new (particleCount * 3),
        Float32Array_new (particleCount * 3) with
  | Ok positions, Ok colors =>
      let! ps := for_rand (Z.to_nat particleCount) body
                          {| positions := positions; colors := colors |} in
      ret (Ok ps)
  | _, _ => ret RangeError
  end.

End Particles.

(** The specification's formula (section 4.3), for comparison. *)
Definition spec_displacement (x z time amplitude waveLength waveSpeed : R)
  : R :=
  let distance := sqrt (x * x + z * z) in
  let phase := (distance / waveLength) - (time * waveSpeed) in
  let radial := amplitude * sin (phase * (2 * PI)) in
  let angle := Math_atan2 z x in
  let angular :=
    0.3 * amplitude * sin (2 * angle + time * waveSpeed * 0.5) in
  radial + angular.

End GreatWave.

(** ** GreatWaveSurface, GreatWave.jsx lines 149-171 *)

Module GreatWaveSurface.

(** Lines 157-165: the displacement at a finite vertex. *)
Definition displacement (x z time waveAmplitude waveLength waveSpeed : R)
  : num :=
  let distance := sqrt (x * x + z * z) in
  let* q := js_div distance waveLength in
  let wavePhase := q - (time * waveSpeed) in
  let waveValue := sin (wavePhase * PI * 2) * waveAmplitude in
  let angle := Math_atan2 z x in
  let angularWave :=
    sin (angle * 2 + time * waveSpeed * 0.5) * waveAmplitude * 0.3 in
  Fin (waveValue + angularWave).

Definition step (time waveAmplitude waveLength waveSpeed : R) (i : nat)
           (positions : buffer) : buffer :=
  let y :=
    let* x := positions !!! i in
    let* z := positions !!! (i + 2)%nat in
    displacement x z time waveAmplitude waveLength waveSpeed in
  <[(i + 1)%nat := y]> positions.

(** [for (i = 0; i < positions.length; i += 3)]. *)
Definition update (time waveAmplitude waveLength waveSpeed : R)
           (positions : buffer) : buffer :=
  for_loop ((length positions + 2) / 3)%nat
           (fun k => step time waveAmplitude waveLength waveSpeed (3 * k)%nat)
           positions.

Definition useFrame (showSurface : bool)
           (elapsedTime waveAmplitude waveLength waveSpeed : R)
           (meshRef : option buffer) : option buffer :=
  match meshRef with
  | Some positions =>
      if showSurface then
        let time := elapsedTime in
        Some (update time waveAmplitude waveLength waveSpeed positions)
      else Some positions
  | None => None
  end.

(** Lines 118-130: the vertex loops over the annulus. *)
Definition vertices (galaxyRadius : R) (segments : Z) : list num * list num :=
  for_loop (Z.to_nat (segments + 1))
    (fun i =>
       for_loop (Z.to_nat (segments + 1))
         (fun j '(positions, normals) =>
            let angle := lift1 (fun q => q * PI * 2)
                               (js_div (INR i) (IZR segments)) in
            let radius := lift1 (fun q => (0.6 + q * 0.7) * galaxyRadius)
                                (js_div (INR j) (IZR segments)) in
            let x := lift2 (fun angle radius => cos angle * radius)
                           angle radius in
            let z := lift2 (fun angle radius => sin angle * radius)
                           angle radius in
            let y := Fin 0 in
            (positions ++ [x; y; z], normals ++ [Fin 0; Fin 1; Fin 0])))
    ([], []).

(** Lines 113-147: the memoised geometry. *)
Definition useMemo (galaxyRadius : R) (segments : Z) : Grid :=
  let '(positions, normals) := vertices galaxyRadius segments in
  {| grid_positions := positions;
     grid_normals := normals;
     grid_indices := Uint16Array_from (triangles segments) |}.

End GreatWaveSurface.

(** ** Stars, MilkyWayVisualization.jsx lines 373-396 *)

Module Stars.

(** Lines 377-383: every coordinate is drawn on its own. *)
Definition useMemo (count : Z) : Rand (result buffer) :=
  match Float32Array_new (count * 3) with
  | Ok positions =>
      let! positions :=
        for_rand (Z.to_nat (count * 3))
                 (fun i positions =>
                    let! u := Math_random in
                    ret (<[i := Fin ((u - 0.5) * 200)]> positions))
                 positions in
      ret (Ok positions)
  | RangeError => ret RangeError
  end.

End Stars.

(** ** OrbitalZone, OrbitalZones.jsx lines 7-57 and 77-81 *)

Module OrbitalZone.

(** An entry of [arrows]: where the arrow starts and where it points. *)
Record Arrow : Type := {
  arrow_position : R * R * R;
  arrow_direction : R * R * R
}.

Section Particles.

(** [new THREE.Color(color)], the zone's colour. *)
Variable colorObj : Color.
Variables minRadius maxRadius : R.

(** Lines 27-54: one iteration of the loop. *)
Definition body (i : nat) (st : ParticleSet * list Arrow)
  : Rand (ParticleSet * list Arrow) :=
  let '(ps, arrows) := st in
  let! u := Math_random in
  let angle := u * PI * 2 in
  let! u := Math_random in
  let radius := minRadius + u * (maxRadius - minRadius) in
  let x := cos angle * radius in
  let z := sin angle * radius in
  let! u := Math_random in
  let y := (u - 0.5) * 0.2 in
  let positions := write_position i (Fin x) (Fin y) (Fin z) (positions ps) in
  let colors := write_color i colorObj (colors ps) in
  let tangentAngle := angle + PI / 2 in
  let! u := Math_random in
  let radialComponent := (u - 0.5) * 0.3 in
  let arrow :=
    {| arrow_position := (x, y, z);
       arrow_direction :=
         (cos tangentAngle * (1 - Rabs radialComponent)
          + cos angle * radialComponent,
          0,
          sin tangentAngle * (1 - Rabs radialComponent)
          + sin angle * radialComponent) |} in
  ret ({| positions := positions; colors := colors |}, arrows ++ [arrow]).

(** Lines 20-57: the memoised zone; [arrowData] is
    [arrows.slice(0, Math.min(50, arrows.length))]. *)
Definition useMemo (particleCount : Z)
  : Rand (result (ParticleSet * list Arrow)) :=
  match Float32Array_new (particleCount * 3),
        Float32Array_new (particleCount * 3) with
  | Ok positions, Ok colors =>
      let! st := for_rand (Z.to_nat particleCount) body
                   ({| positions := positions; colors := colors |}, []) in
      let '(ps, arrows) := st in
      ret (Ok (ps, take (Nat.min 50 (length arrows)) arrows))
  | _, _ => ret RangeError
  end.

End Particles.

(** Lines 77-81: the frame callback turns the zone about Y. *)
Definition useFrame (rotationSpeed delta : R) (groupRef : option R)
  : option R :=
  match groupRef with
  | Some rotation_y => Some (rotation_y + rotationSpeed * delta)
  | None => None
  end.

End OrbitalZone.

(** ** MilkyWayVisualization, MilkyWayVisualization.jsx lines 451-457 *)

Module MilkyWayVisualization.

(** The frame callback moves [galaxyPosition.current], the array
    [[x, y, z]] of line 400 at which every layer of the galaxy is
    placed: entries 0 and 2 are overwritten. *)
Definition useFrame (enableMovement : bool) (elapsedTime movementSpeed : R)
           (galaxyPosition : R * R * R) : R * R * R :=
  let '(x, y, z) := galaxyPosition in
  if enableMovement then
    let time := elapsedTime in
    (sin (time * movementSpeed) * 10, y, time * movementSpeed * 5)
  else (x, y, z).

End MilkyWayVisualization.

(** * Vocabulary of the properties *)

(** Every frame loop has the same shape: iteration [k] rewrites slot
    [3 * k + 1] from slots [3 * k] and [3 * k + 2]. *)
Definition rewrite_y (f : num -> num -> num) (i : nat) (p : buffer) : buffer :=
  <[(i + 1)%nat := f (p !!! i) (p !!! (i + 2)%nat)]> p.

Definition sweep (f : num -> num -> num) (n : nat) (p : buffer) : buffer :=
  for_loop n (fun k => rewrite_y f (3 * k)%nat) p.

(** What each frame loop writes into a Y slot, from the x and z slots. *)
Definition WaveField_y (time waveIntensity : R) : num -> num -> num :=
  lift2 (fun x z => WaveField.height x z time waveIntensity).

Definition WaveParticles_y (time waveIntensity : R) : num -> num -> num :=
  lift2 (fun x z => WaveParticles.height x z time waveIntensity).

Definition GreatWave_y (time waveAmplitude waveLength waveSpeed : R)
  : num -> num -> num :=
  fun a b =>
    let* x := a in
    let* z := b in
    GreatWave.displacement x z time waveAmplitude waveLength waveSpeed.

Definition GreatWaveSurface_y (time waveAmplitude waveLength waveSpeed : R)
  : num -> num -> num :=
  fun a b =>
    let* x := a in
    let* z := b in
    GreatWaveSurface.displacement x z time waveAmplitude waveLength waveSpeed.

(** The distance test of line 289 succeeds for particles [i] and [j]. *)
Definition near (particlePositions : list Vector3) (connectionDistance : R)
           (i j : nat) : Prop :=
  distanceTo (particlePositions !!! i) (particlePositions !!! j)
  < connectionDistance.

(** A stored pair: increasing, in range, and near. *)
Definition stored (particlePositions : list Vector3) (connectionDistance : R)
           (p : nat * nat) : Prop :=
  (p.1 < p.2 < WaveParticles.count particlePositions)%nat /\
  near particlePositions connectionDistance p.1 p.2.

(** The pair was scanned before the loops reached [(i, j)]. *)
Definition before (i j : nat) (p : nat * nat) : Prop :=
  (p.1 < i \/ (p.1 = i /\ p.2 < j))%nat.

(** The invariant of the two loops at [(i, j)]. *)
Definition scanned (particlePositions : list Vector3) (connectionDistance : R)
           (i j : nat) (l : list (nat * nat)) : Prop :=
  NoDup l /\
  Forall (stored particlePositions connectionDistance) l /\
  Forall (before i j) l.

(** The loops go on only below the cap. *)
Definition open (maxConnections : Z) (l : list (nat * nat)) : Prop :=
  l = [] \/ (Z.of_nat (length l) < maxConnections)%Z.

(** What the vertex loops of the WaveField push for vertex [(i, j)]. *)
Definition WaveField_vertex (segments : Z) (i j : nat) : list num :=
  [lift1 (fun q => (q - 0.5) * 100) (js_div (INR i) (IZR segments));
   Fin 0;
   lift1 (fun q => (q - 0.5) * 100) (js_div (INR j) (IZR segments))].

(** What the vertex loops of the GreatWaveSurface push for vertex
    [(i, j)]. *)
Definition GreatWaveSurface_vertex (galaxyRadius : R) (segments : Z)
           (i j : nat) : list num :=
  let angle := lift1 (fun q => q * PI * 2) (js_div (INR i) (IZR segments)) in
  let radius := lift1 (fun q => (0.6 + q * 0.7) * galaxyRadius)
                      (js_div (INR j) (IZR segments)) in
  [lift2 (fun angle radius => cos angle * radius) angle radius;
   Fin 0;
   lift2 (fun angle radius => sin angle * radius) angle radius].

(** A grid buffer of [n] rows of [n] vertices, three numbers each. *)
Definition grid_of (vertex : nat -> nat -> list num) (n : nat) : list num :=
  flat_map (fun i => flat_map (vertex i) (seq 0 n)) (seq 0 n).

(** The vertex behind slot [k] of a grid buffer built row by row with
    [n] vertices per row: its row, its column and the coordinate. *)
Definition vertex_slot (n i j r : nat) : nat := ((i * n + j) * 3 + r)%nat.

(** The triangles of cell [(i, j)] of a surface with [segments]
    segments, as pushed by the index loops. *)
Definition cell_indices (segments : Z) (i j : nat) : list Z :=
  let a := (Z.of_nat i * (segments + 1) + Z.of_nat j)%Z in
  let b := (a + segments + 1)%Z in
  [a; b; (a + 1)%Z; b; (b + 1)%Z; (a + 1)%Z].

(** The distance test of line 289, as a boolean. *)
Definition nearb (particlePositions : list Vector3) (connectionDistance : R)
           (i j : nat) : bool :=
  ltb (distanceTo (particlePositions !!! i) (particlePositions !!! j))
      connectionDistance.

(** The near pairs [(i, j)] with [j] from [j0] on, [n] of them scanned,
    in scanning order. *)
Definition near_from (particlePositions : list Vector3)
           (connectionDistance : R) (i j0 n : nat) : list (nat * nat) :=
  map (pair i)
      (List.filter (nearb particlePositions connectionDistance i) (seq j0 n)).

(** All near pairs [(i, j)], [i < j], in scanning order. *)
Definition near_pairs (particlePositions : list Vector3)
           (connectionDistance : R) : list (nat * nat) :=
  flat_map (fun i =>
              near_from particlePositions connectionDistance i (S i)
                        (length particlePositions - S i))
           (seq 0 (length particlePositions)).

(** Lines 28-53, for the draws from [n] on: the particle and its
    arrow. *)
Definition zone_arrow (minRadius maxRadius : R) (rng : nat -> R) (n : nat)
  : OrbitalZone.Arrow :=
  let angle := rng n * PI * 2 in
  let radius := minRadius + rng (S n) * (maxRadius - minRadius) in
  let radialComponent := (rng (S (S (S n))) - 0.5) * 0.3 in
  {| OrbitalZone.arrow_position :=
       (cos angle * radius, (rng (S (S n)) - 0.5) * 0.2, sin angle * radius);
     OrbitalZone.arrow_direction :=
       (cos (angle + PI / 2) * (1 - Rabs radialComponent)
        + cos angle * radialComponent,
        0,
        sin (angle + PI / 2) * (1 - Rabs radialComponent)
        + sin angle * radialComponent) |}.

(** The time a run of frames takes: the sum of their [delta]s. *)
Definition total_time (deltas : list R) : R := foldr Rplus 0 deltas.

(** The particle set with no particle. *)
Definition empty_set : ParticleSet := {| positions := []; colors := [] |}.

(** The sampled radius of the star placed from draw [n] on (line 32). *)
Definition sampled_radius (galaxyRadius : R) (rng : nat -> R) (n : nat) : R :=
  rng (S n) * galaxyRadius.

(** A colour library and a random source to run the generators on. *)
Definition grey_three : Three :=
  {| setHSL := fun _ _ l => {| color_r := l; color_g := l; color_b := l |};
     getHSL_h := fun _ => 0 |}.

Definition half_source : nat -> R := fun _ => 1 / 2.

(** * Properties *)

(** ** Loops and buffers *)

(** Offsets are reasoned about modulo 3. *)
Ltac Zify.zify_post_hook ::= Z.to_euclidean_division_equations.

Lemma for_loop_S {S : Type} (n : nat) (body : nat -> S -> S) (s : S) :
  for_loop (Datatypes.S n) body s = body n (for_loop n body s).
Proof.
  unfold for_loop. rewrite seq_S, foldl_snoc. reflexivity.
Qed.

Lemma buffer_ext (l1 l2 : buffer) :
  length l1 = length l2 ->
  (forall j, (j < length l1)%nat -> l1 !!! j = l2 !!! j) ->
  l1 = l2.
Proof.
  intros Hlen Hnth. apply list_eq. intros j.
  destruct (decide (j < length l1)%nat) as [Hj|Hj].
  - rewrite (list_lookup_lookup_total_lt l1 j Hj).
    rewrite (list_lookup_lookup_total_lt l2 j) by lia.
    f_equal. apply Hnth, Hj.
  - rewrite !lookup_ge_None_2 by lia. reflexivity.
Qed.

Section RewriteLoop.

Variable f : num -> num -> num.

Lemma sweep_length n p : length (sweep f n p) = length p.
Proof.
  induction n as [|n IH]; [reflexivity|].
  unfold sweep in *. rewrite for_loop_S. unfold rewrite_y at 1.
  rewrite length_insert. exact IH.
Qed.

Lemma sweep_lookup n p j :
  sweep f n p !!! j =
  if decide (j mod 3 = 1 /\ j / 3 < n /\ j < length p)%nat
  then f (p !!! (j - 1)%nat) (p !!! (j + 1)%nat)
  else p !!! j.
Proof.
  revert j. induction n as [|n IH]; intros j.
  - change (sweep f 0 p) with p. destruct (decide _) as [H|H]; [exfalso; lia|done].
  - unfold sweep in *. rewrite for_loop_S. unfold rewrite_y at 1.
    rewrite list_lookup_total_insert.
    pose proof (sweep_length n p) as Hlen. unfold sweep in Hlen.
    rewrite Hlen, !IH.
    repeat destruct (decide _); try (exfalso; lia); try reflexivity.
    destruct a as [<- _]. f_equal; f_equal; lia.
Qed.

Lemma sweep_idem n p : sweep f n (sweep f n p) = sweep f n p.
Proof.
  apply buffer_ext; [apply sweep_length|].
  intros j _. rewrite (sweep_lookup n (sweep f n p)).
  rewrite sweep_length, !sweep_lookup.
  repeat destruct (decide _); try (exfalso; lia); reflexivity.
Qed.

End RewriteLoop.

Lemma for_loop_ext {S : Type} (n : nat) (body1 body2 : nat -> S -> S) (s : S) :
  (forall i s, body1 i s = body2 i s) ->
  for_loop n body1 s = for_loop n body2 s.
Proof.
  intros Hbody. induction n as [|n IH]; [reflexivity|].
  rewrite !for_loop_S, IH. apply Hbody.
Qed.

(** ** The frame loops as sweeps *)

Lemma WaveField_update_sweep time waveIntensity positions :
  WaveField.update time waveIntensity positions =
  sweep (WaveField_y time waveIntensity) ((length positions + 2) / 3) positions.
Proof. reflexivity. Qed.

Lemma WaveParticles_update_sweep count time waveIntensity positions :
  WaveParticles.update count time waveIntensity positions =
  sweep (WaveParticles_y time waveIntensity) (Z.to_nat count) positions.
Proof.
  unfold WaveParticles.update, sweep. apply for_loop_ext. intros i p.
  unfold WaveParticles.step, rewrite_y. rewrite (Nat.mul_comm i 3).
  reflexivity.
Qed.

Lemma GreatWave_update_sweep particleCount time waveAmplitude waveLength
      waveSpeed positions :
  GreatWave.update particleCount time waveAmplitude waveLength waveSpeed
                   positions =
  sweep (GreatWave_y time waveAmplitude waveLength waveSpeed)
        (Z.to_nat particleCount) positions.
Proof.
  unfold GreatWave.update, sweep. apply for_loop_ext. intros i p.
  unfold GreatWave.step, rewrite_y. rewrite (Nat.mul_comm i 3).
  reflexivity.
Qed.

Lemma WaveField_height_twice x z elapsedTime waveSpeed I :
  WaveField.height x z (elapsedTime * waveSpeed) I =
  2 * WaveField.spec_height x z elapsedTime waveSpeed I.
Proof.
  unfold WaveField.height, WaveField.spec_height. cbv zeta.
  replace (0.1 * x + elapsedTime * waveSpeed)
    with (x * 0.1 + elapsedTime * waveSpeed) by lra.
  replace (0.1 * z + 0.6 * (elapsedTime * waveSpeed))
    with (z * 0.1 + elapsedTime * waveSpeed * 0.6) by lra.
  replace (0.05 * x + 0.05 * z + 0.8 * (elapsedTime * waveSpeed))
    with (x * 0.05 + z * 0.05 + elapsedTime * waveSpeed * 0.8) by lra.
  replace (0.1 * sqrt (x * x + z * z) - 1.2 * (elapsedTime * waveSpeed))
    with (sqrt (x * x + z * z) * 0.1 - elapsedTime * waveSpeed * 1.2) by lra.
  lra.
Qed.

(** ** C1: the height the WaveField update writes *)

(** C1 (as amended).  For every vertex [k] of the position buffer whose
    planar position is [(x, z)], the WaveField frame update leaves the
    height 2 * I * [sin(0.1x + t) + sin(0.1z + 0.6t)
    + 1.5 sin(0.05x + 0.05z + 0.8t) + 0.75 sin(0.1 sqrt(x^2 + z^2) - 1.2t)]
    in the vertex's Y slot, with t = elapsedTime * waveSpeed: twice the
    value the specification's formula gives. *)
Theorem WaveField_update_height :
  forall (elapsedTime waveSpeed I : R) (positions : buffer) (k : nat) (x z : R),
    positions !! (3 * k)%nat = Some (Fin x) ->
    positions !! (3 * k + 2)%nat = Some (Fin z) ->
    exists positions',
      WaveField.useFrame elapsedTime waveSpeed I (Some positions)
        = Some positions' /\
      positions' !! (3 * k + 1)%nat
        = Some (Fin (2 * WaveField.spec_height x z elapsedTime waveSpeed I)).
Proof.
  intros e ws I p k x z Hx Hz.
  eexists. split; [reflexivity|].
  pose proof (lookup_lt_Some _ _ _ Hz) as Hlen.
  apply list_lookup_total_correct in Hx, Hz.
  rewrite WaveField_update_sweep.
  apply list_lookup_alt. split; [rewrite sweep_length; lia|].
  rewrite sweep_lookup.
  destruct (decide _) as [_|Hn]; [|exfalso; lia].
  replace (3 * k + 1 - 1)%nat with (3 * k)%nat by lia.
  replace (3 * k + 1 + 1)%nat with (3 * k + 2)%nat by lia.
  rewrite Hx, Hz. unfold WaveField_y. cbn.
  rewrite WaveField_height_twice. reflexivity.
Qed.

(** The update on a one-vertex buffer at the origin. *)
Lemma WaveField_update_height_witness :
  exists positions',
    WaveField.useFrame 1 1 1 (Some [Fin 0; Fin 0; Fin 0]) = Some positions' /\
    positions' !! 1%nat = Some (Fin (2 * WaveField.spec_height 0 0 1 1 1)).
Proof.
  apply (WaveField_update_height 1 1 1 [Fin 0; Fin 0; Fin 0] 0 0 0);
    reflexivity.
Defined.

(** At the origin, half a period in: the specification's formula gives
    a positive height, and the update writes twice that. *)
Lemma WaveField_spec_height_pos : 0 < WaveField.spec_height 0 0 PI (1 / 2) 1.
Proof.
  unfold WaveField.spec_height. cbv zeta.
  replace (0.1 * 0 + PI * (1 / 2)) with (PI / 2) by lra.
  rewrite sin_PI2.
  assert (Hpi := PI_RGT_0).
  assert (H1 : 0 < sin (0.1 * 0 + 0.6 * (PI * (1 / 2))))
    by (apply sin_gt_0; lra).
  assert (H2 : 0 < sin (0.05 * 0 + 0.05 * 0 + 0.8 * (PI * (1 / 2))))
    by (apply sin_gt_0; lra).
  pose proof (SIN_bound (0.1 * sqrt (0 * 0 + 0 * 0) - 1.2 * (PI * (1 / 2))))
    as [H3 _].
  lra.
Qed.

(** C1, counterexample.  On the one-vertex buffer at the origin, with
    elapsedTime = pi, waveSpeed = 1/2 and intensity 1, the update
    writes a height that differs from the specification's formula. *)
Lemma WaveField_update_height_counterexample :
  exists y,
    WaveField.useFrame PI (1 / 2) 1 (Some [Fin 0; Fin 0; Fin 0])
      = Some [Fin 0; Fin y; Fin 0] /\
    y <> WaveField.spec_height 0 0 PI (1 / 2) 1.
Proof.
  exists (WaveField.height 0 0 (PI * (1 / 2)) 1). split; [reflexivity|].
  rewrite WaveField_height_twice.
  pose proof WaveField_spec_height_pos. lra.
Qed.

(** ** C8: a second update at the same time changes nothing *)

(** C8.  Each frame update (WaveField, WaveParticles, GreatWave), run
    twice with the same time value and parameters, leaves the same
    buffers as running it once, from every state. *)
Theorem useFrame_idempotent :
  forall (count : Z) (showWave : bool)
         (elapsedTime waveSpeed waveIntensity waveAmplitude waveLength : R),
    (forall meshRef : option buffer,
        WaveField.useFrame elapsedTime waveSpeed waveIntensity
          (WaveField.useFrame elapsedTime waveSpeed waveIntensity meshRef)
        = WaveField.useFrame elapsedTime waveSpeed waveIntensity meshRef) /\
    (forall particlesRef : option ParticleSet,
        WaveParticles.useFrame count elapsedTime waveSpeed waveIntensity
          (WaveParticles.useFrame count elapsedTime waveSpeed waveIntensity
             particlesRef)
        = WaveParticles.useFrame count elapsedTime waveSpeed waveIntensity
            particlesRef) /\
    (forall particlesRef : option ParticleSet,
        GreatWave.useFrame count showWave elapsedTime waveAmplitude waveLength
          waveSpeed
          (GreatWave.useFrame count showWave elapsedTime waveAmplitude
             waveLength waveSpeed particlesRef)
        = GreatWave.useFrame count showWave elapsedTime waveAmplitude
            waveLength waveSpeed particlesRef).
Proof.
  intros count showWave e ws I A wl. repeat split.
  - intros [p|]; [|reflexivity]. cbn [WaveField.useFrame]. f_equal.
    rewrite !WaveField_update_sweep, sweep_length. apply sweep_idem.
  - intros [[p c]|]; [|reflexivity].
    cbn [WaveParticles.useFrame positions colors]. do 2 f_equal.
    rewrite !WaveParticles_update_sweep. apply sweep_idem.
  - intros [[p c]|]; [|reflexivity].
    destruct showWave; cbn [GreatWave.useFrame positions colors];
      [|reflexivity].
    do 2 f_equal. rewrite !GreatWave_update_sweep. apply sweep_idem.
Qed.

(** ** C9: the WaveParticles update writes heights only *)

(** C9.  A WaveParticles frame update keeps the colour buffer and the
    length of the position buffer, keeps the x and z slot of every
    particle, and rewrites only Y slots: that of particle [i] below
    [count] receives the wave height at the particle's (x, z), and
    every other slot is as before.  Particle indices therefore stay
    valid. *)
Theorem WaveParticles_useFrame_frame :
  forall (count : Z) (elapsedTime waveSpeed waveIntensity : R)
         (ps : ParticleSet),
    exists ps',
      WaveParticles.useFrame count elapsedTime waveSpeed waveIntensity
        (Some ps) = Some ps' /\
      colors ps' = colors ps /\
      length (positions ps') = length (positions ps) /\
      (forall i : nat,
          positions ps' !! (i * 3)%nat = positions ps !! (i * 3)%nat /\
          positions ps' !! (i * 3 + 2)%nat = positions ps !! (i * 3 + 2)%nat) /\
      (forall i : nat,
          (Z.of_nat i < count)%Z ->
          (i * 3 + 1 < length (positions ps))%nat ->
          positions ps' !!! (i * 3 + 1)%nat =
          lift2 (fun x z =>
                   WaveParticles.height x z (elapsedTime * waveSpeed)
                                        waveIntensity)
                (positions ps !!! (i * 3)%nat)
                (positions ps !!! (i * 3 + 2)%nat)) /\
      (forall i : nat,
          (count <= Z.of_nat i)%Z ->
          positions ps' !! (i * 3 + 1)%nat = positions ps !! (i * 3 + 1)%nat).
Proof.
  intros count e ws I [p c]. eexists. split; [reflexivity|].
  cbn [positions colors]. rewrite WaveParticles_update_sweep.
  assert (Hsame : forall j, ~ (j mod 3 = 1 /\ j / 3 < Z.to_nat count)%nat ->
            sweep (WaveParticles_y (e * ws) I) (Z.to_nat count) p !! j
            = p !! j).
  { intros j Hj.
    destruct (decide (j < length p)%nat) as [Hlt|Hge].
    - rewrite (list_lookup_lookup_total_lt _ j)
        by (rewrite sweep_length; exact Hlt).
      rewrite (list_lookup_lookup_total_lt p j Hlt). f_equal.
      rewrite sweep_lookup. destruct (decide _); [exfalso; tauto|reflexivity].
    - rewrite !lookup_ge_None_2; [reflexivity|lia|rewrite sweep_length; lia]. }
  split; [reflexivity|]. split; [apply sweep_length|].
  split; [|split].
  - intros i. split; apply Hsame; lia.
  - intros i Hi Hlen. rewrite sweep_lookup.
    destruct (decide _) as [_|Hn]; [|exfalso; lia].
    replace (i * 3 + 1 - 1)%nat with (i * 3)%nat by lia.
    replace (i * 3 + 1 + 1)%nat with (i * 3 + 2)%nat by lia.
    reflexivity.
  - intros i Hi. apply Hsame. lia.
Qed.

(** ** C6, C10: the Great Wave displacement *)

Lemma GreatWaveSurface_update_sweep time waveAmplitude waveLength waveSpeed
      positions :
  GreatWaveSurface.update time waveAmplitude waveLength waveSpeed positions =
  sweep (GreatWaveSurface_y time waveAmplitude waveLength waveSpeed)
        ((length positions + 2) / 3) positions.
Proof. reflexivity. Qed.

Lemma js_div_nonzero (a b : R) : b <> 0 -> js_div a b = Fin (a / b).
Proof.
  intros Hb. unfold js_div. destruct (Req_dec_T b 0); [contradiction|reflexivity].
Qed.

Lemma js_div_zero (a : R) : js_div a 0 = NonFin.
Proof.
  unfold js_div. destruct (Req_dec_T 0 0); [reflexivity|contradiction].
Qed.

Lemma GreatWave_displacement_spec x z time amplitude waveLength waveSpeed :
  waveLength <> 0 ->
  GreatWave.displacement x z time amplitude waveLength waveSpeed =
  Fin (GreatWave.spec_displacement x z time amplitude waveLength waveSpeed).
Proof.
  intros Hwl. unfold GreatWave.displacement, GreatWave.spec_displacement.
  cbv zeta. rewrite js_div_nonzero by exact Hwl. cbn [bind]. f_equal.
  set (d := sqrt (x * x + z * z)).
  replace ((d / waveLength - time * waveSpeed) * (2 * PI))
    with ((d / waveLength - time * waveSpeed) * PI * 2) by ring.
  replace (2 * Math_atan2 z x + time * waveSpeed * 0.5)
    with (Math_atan2 z x * 2 + time * waveSpeed * 0.5) by ring.
  ring.
Qed.

Lemma GreatWave_spec_displacement_0 x z time waveLength waveSpeed :
  GreatWave.spec_displacement x z time 0 waveLength waveSpeed = 0.
Proof. unfold GreatWave.spec_displacement. cbv zeta. ring. Qed.

(** C6 (as amended).  For every point (x, z), time, amplitude and
    waveSpeed, and every waveLength other than 0, the displacement the
    GreatWave and GreatWaveSurface updates compute is radial + angular
    with distance = sqrt(x^2 + z^2), phase = distance / waveLength
    - time * waveSpeed, radial = amplitude * sin(phase * 2 pi),
    angle = atan2(z, x), angular = 0.3 * amplitude * sin(2 * angle
    + time * waveSpeed * 0.5); it is what the particle update writes
    into the Y slot of a particle at (x, z); and with amplitude 0 it
    is 0. *)
Theorem GreatWave_displacement_formula :
  forall (x z time amplitude waveLength waveSpeed : R),
    waveLength <> 0 ->
    GreatWave.displacement x z time amplitude waveLength waveSpeed
      = Fin (GreatWave.spec_displacement x z time amplitude waveLength
               waveSpeed) /\
    GreatWaveSurface.displacement x z time amplitude waveLength waveSpeed
      = Fin (GreatWave.spec_displacement x z time amplitude waveLength
               waveSpeed) /\
    (forall (particleCount : Z) (positions : buffer) (i : nat),
        (Z.of_nat i < particleCount)%Z ->
        positions !! (i * 3)%nat = Some (Fin x) ->
        positions !! (i * 3 + 2)%nat = Some (Fin z) ->
        GreatWave.update particleCount time amplitude waveLength waveSpeed
          positions !! (i * 3 + 1)%nat
        = Some (Fin (GreatWave.spec_displacement x z time amplitude
                       waveLength waveSpeed))) /\
    GreatWave.displacement x z time 0 waveLength waveSpeed = Fin 0 /\
    GreatWaveSurface.displacement x z time 0 waveLength waveSpeed = Fin 0.
Proof.
  intros x z t A wl ws Hwl.
  pose proof (GreatWave_displacement_spec x z t A wl ws Hwl) as Hd.
  pose proof (GreatWave_displacement_spec x z t 0 wl ws Hwl) as H0.
  rewrite GreatWave_spec_displacement_0 in H0.
  repeat split; try assumption.
  intros n p i Hi Hx Hz.
  pose proof (lookup_lt_Some _ _ _ Hz) as Hlen.
  apply list_lookup_total_correct in Hx, Hz.
  rewrite GreatWave_update_sweep.
  apply list_lookup_alt. split; [rewrite sweep_length; lia|].
  rewrite sweep_lookup.
  destruct (decide _) as [_|Hn]; [|exfalso; lia].
  replace (i * 3 + 1 - 1)%nat with (i * 3)%nat by lia.
  replace (i * 3 + 1 + 1)%nat with (i * 3 + 2)%nat by lia.
  rewrite Hx, Hz. exact Hd.
Qed.

(** The displacement at (3, 4) with the default parameters. *)
Lemma GreatWave_displacement_formula_witness :
  GreatWave.displacement 3 4 1 (65 / 100) 30 (5 / 100)
    = Fin (GreatWave.spec_displacement 3 4 1 (65 / 100) 30 (5 / 100)) /\
  GreatWave.displacement 3 4 1 0 30 (5 / 100) = Fin 0.
Proof.
  destruct (GreatWave_displacement_formula 3 4 1 (65 / 100) 30 (5 / 100))
    as (Hd & _ & _ & H0 & _); [lra|].
  split; [exact Hd|exact H0].
Defined.

(** C6, counterexample.  With waveLength = 0 and amplitude = 0 the
    phase is a division by zero: the displacement at (1, 0) is
    non-finite (NaN in JavaScript, since NaN * 0 is NaN), not 0. *)
Lemma GreatWave_displacement_counterexample :
  GreatWave.displacement 1 0 0 0 0 0 = NonFin /\
  GreatWave.displacement 1 0 0 0 0 0 <> Fin 0.
Proof.
  assert (H : GreatWave.displacement 1 0 0 0 0 0 = NonFin).
  { unfold GreatWave.displacement. cbv zeta. rewrite js_div_zero.
    reflexivity. }
  split; [exact H|]. rewrite H. discriminate.
Qed.

(** C10 (as amended).  For every point, time, amplitude and waveSpeed,
    and every waveLength other than 0, the Great Wave displacement is
    finite and its absolute value is at most 1.3 * |amplitude|; hence
    at most 1.3 * amplitude when the amplitude is not negative. *)
Theorem GreatWave_displacement_bound :
  forall (x z time amplitude waveLength waveSpeed : R),
    waveLength <> 0 ->
    exists d : R,
      GreatWave.displacement x z time amplitude waveLength waveSpeed = Fin d /\
      Rabs d <= 1.3 * Rabs amplitude /\
      (0 <= amplitude -> Rabs d <= 1.3 * amplitude).
Proof.
  intros x z t A wl ws Hwl.
  unfold GreatWave.displacement. cbv zeta.
  rewrite js_div_nonzero by exact Hwl. cbn [bind].
  eexists. split; [reflexivity|].
  set (s1 := sin _). set (s2 := sin _).
  assert (H1 : -1 <= s1 <= 1) by apply SIN_bound.
  assert (H2 : -1 <= s2 <= 1) by apply SIN_bound.
  assert (Hb : Rabs (s1 * A + s2 * A * 0.3) <= 1.3 * Rabs A).
  { unfold Rabs. destruct (Rcase_abs _), (Rcase_abs A); nra. }
  split; [exact Hb|].
  intros HA. rewrite (Rabs_pos_eq A HA) in Hb. exact Hb.
Qed.

(** The bound at (3, 4) with the default parameters. *)
Lemma GreatWave_displacement_bound_witness :
  exists d : R,
    GreatWave.displacement 3 4 1 (65 / 100) 30 (5 / 100) = Fin d /\
    Rabs d <= 1.3 * (65 / 100).
Proof.
  destruct (GreatWave_displacement_bound 3 4 1 (65 / 100) 30 (5 / 100))
    as (d & Hd & _ & Hb); [lra|].
  exists d. split; [exact Hd|apply Hb; lra].
Defined.

(** C10, counterexample.  With amplitude -1 the displacement at the
    origin is a number whose absolute value is not at most 1.3 * (-1);
    and with waveLength 0 the displacement is not a finite number at
    all. *)
Lemma GreatWave_displacement_bound_counterexample :
  (exists d : R,
      GreatWave.displacement 0 0 0 (-1) 30 0 = Fin d /\
      ~ Rabs d <= 1.3 * (-1)) /\
  GreatWave.displacement 0 0 0 1 0 0 = NonFin.
Proof.
  split.
  - unfold GreatWave.displacement. cbv zeta.
    rewrite js_div_nonzero by lra. cbn [bind].
    eexists. split; [reflexivity|].
    intros H. pose proof (Rabs_pos (sin ((sqrt (0 * 0 + 0 * 0) / 30 - 0 * 0)
      * PI * 2) * -1 + sin (Math_atan2 0 0 * 2 + 0 * 0 * 0.5) * -1 * 0.3)).
    lra.
  - unfold GreatWave.displacement. cbv zeta. rewrite js_div_zero.
    reflexivity.
Qed.

(** ** C2, C3: the proximity graph *)

Section ConnectionFacts.

Variable particlePositions : list Vector3.
Variable connectionDistance : R.
Variable maxConnections : Z.

Lemma ltb_near i j :
  ltb (distanceTo (particlePositions !!! i) (particlePositions !!! j))
      connectionDistance = true
  <-> near particlePositions connectionDistance i j.
Proof.
  unfold ltb, near. destruct (Rlt_dec _ _); split; intros; auto; discriminate.
Qed.

Lemma ltb_far i j :
  ltb (distanceTo (particlePositions !!! i) (particlePositions !!! j))
      connectionDistance = false
  <-> ~ near particlePositions connectionDistance i j.
Proof.
  unfold ltb, near. destruct (Rlt_dec _ _); split; intros; auto;
    try discriminate; contradiction.
Qed.

Lemma not_full_open l :
  WaveParticles.full maxConnections l = false -> open maxConnections l.
Proof.
  unfold WaveParticles.full, open. intros H. right. lia.
Qed.

Lemma open_length l :
  open maxConnections l ->
  (Z.of_nat (length l) <= Z.max 1 maxConnections)%Z.
Proof. intros [->|H]; cbn; lia. Qed.

Lemma before_mono i j i' j' p :
  (i < i' \/ (i = i' /\ j <= j'))%nat -> before i j p -> before i' j' p.
Proof. unfold before. lia. Qed.

Lemma scanned_mono i j i' j' l :
  (i < i' \/ (i = i' /\ j <= j'))%nat ->
  scanned particlePositions connectionDistance i j l ->
  scanned particlePositions connectionDistance i' j' l.
Proof.
  intros Hle (Hnd & Hst & Hbf). repeat split; try assumption.
  eapply Forall_impl; [exact Hbf|]. intros p. apply before_mono, Hle.
Qed.

Lemma scanned_snoc i j l :
  (i < j < WaveParticles.count particlePositions)%nat ->
  near particlePositions connectionDistance i j ->
  scanned particlePositions connectionDistance i j l ->
  scanned particlePositions connectionDistance i (S j) (l ++ [(i, j)]).
Proof.
  intros Hij Hnear (Hnd & Hst & Hbf). repeat split.
  - apply NoDup_app. repeat split; [exact Hnd| |apply NoDup_singleton].
    intros p Hp Hq. apply list_elem_of_singleton in Hq. subst p.
    rewrite Forall_forall in Hbf. specialize (Hbf _ Hp).
    unfold before in Hbf. cbn in Hbf. lia.
  - apply Forall_app. split; [exact Hst|].
    apply Forall_singleton. split; [exact Hij|exact Hnear].
  - apply Forall_app. split.
    + eapply Forall_impl; [exact Hbf|]. intros p.
      apply before_mono. lia.
    + apply Forall_singleton. unfold before. cbn. lia.
Qed.

(** The inner loop keeps the invariant and ends its row. *)
Lemma inner_scanned n : forall i j l,
  (i < j)%nat -> (j + n = WaveParticles.count particlePositions)%nat ->
  scanned particlePositions connectionDistance i j l ->
  scanned particlePositions connectionDistance (S i) 0
    (WaveParticles.inner particlePositions connectionDistance maxConnections
                         i j n l).
Proof.
  induction n as [|n IH]; intros i j l Hij Hn Hsc.
  - cbn. eapply scanned_mono; [|exact Hsc]. lia.
  - cbn. destruct (ltb _ _) eqn:Hnear.
    + apply ltb_near in Hnear.
      assert (Hsn : scanned particlePositions connectionDistance i (S j)
                      (l ++ [(i, j)]))
        by (apply scanned_snoc; [lia|assumption..]).
      destruct (WaveParticles.full _ _).
      * eapply scanned_mono; [|exact Hsn]. lia.
      * apply IH; [lia|lia|exact Hsn].
    + apply IH; [lia|lia|]. eapply scanned_mono; [|exact Hsc]. lia.
Qed.

Lemma outer_scanned n : forall i l,
  (i + n = WaveParticles.count particlePositions)%nat ->
  scanned particlePositions connectionDistance i 0 l ->
  scanned particlePositions connectionDistance
    (WaveParticles.count particlePositions) 0
    (WaveParticles.outer particlePositions connectionDistance maxConnections
                         i n l).
Proof.
  induction n as [|n IH]; intros i l Hn Hsc.
  - cbn. eapply scanned_mono; [|exact Hsc]. lia.
  - cbn.
    assert (Hin : scanned particlePositions connectionDistance (S i) 0
              (WaveParticles.inner particlePositions connectionDistance
                 maxConnections i (S i)
                 (WaveParticles.count particlePositions - S i) l)).
    { apply inner_scanned; [lia|lia|].
      eapply scanned_mono; [|exact Hsc]. lia. }
    destruct (WaveParticles.full _ _).
    + eapply scanned_mono; [|exact Hin]. lia.
    + apply IH; [lia|exact Hin].
Qed.

(** Below the cap on entry, the inner loop returns at most
    max(1, maxConnections) pairs. *)
Lemma inner_length n : forall i j l,
  open maxConnections l ->
  (Z.of_nat (length (WaveParticles.inner particlePositions connectionDistance
                       maxConnections i j n l))
   <= Z.max 1 maxConnections)%Z.
Proof.
  induction n as [|n IH]; intros i j l Hl.
  - cbn. apply open_length, Hl.
  - cbn. destruct (ltb _ _).
    + destruct (WaveParticles.full _ _) eqn:Hfull.
      * rewrite length_app. cbn. destruct Hl as [->|Hl]; cbn; lia.
      * apply IH, not_full_open, Hfull.
    + apply IH, Hl.
Qed.

Lemma outer_length n : forall i l,
  open maxConnections l ->
  (Z.of_nat (length (WaveParticles.outer particlePositions connectionDistance
                       maxConnections i n l))
   <= Z.max 1 maxConnections)%Z.
Proof.
  induction n as [|n IH]; intros i l Hl.
  - cbn. apply open_length, Hl.
  - cbn. destruct (WaveParticles.full _ _) eqn:Hfull.
    + apply inner_length, Hl.
    + apply IH, not_full_open, Hfull.
Qed.

End ConnectionFacts.

Lemma distanceTo_self (a : Vector3) : distanceTo a a = 0.
Proof.
  unfold distanceTo. cbv zeta.
  replace ((vx a - vx a) * (vx a - vx a) + (vy a - vy a) * (vy a - vy a)
           + (vz a - vz a) * (vz a - vz a)) with 0 by ring.
  apply sqrt_0.
Qed.

Lemma ltb_true (a b : R) : a < b -> ltb a b = true.
Proof. intros H. unfold ltb. destruct (Rlt_dec a b); [reflexivity|contradiction]. Qed.

Lemma ltb_false (a b : R) : ~ a < b -> ltb a b = false.
Proof. intros H. unfold ltb. destruct (Rlt_dec a b); [contradiction|reflexivity]. Qed.

(** The generation loop pushes one vector per iteration: the bound
    [count] of the connection loops is the length of
    [particlePositions]. *)
Lemma WaveParticles_generated_count (three : Three) (particleColor : string)
      (rng : nat -> R) (k : nat) (ps0 : ParticleSet) (c0 : nat) :
  length (for_rand k (WaveParticles.body three particleColor) (ps0, [])
                   rng c0).1.2 = k.
Proof.
  induction k as [|k IH]; [reflexivity|].
  unfold for_rand in *. rewrite for_loop_S.
  destruct (for_loop k _ _) as [[ps l] c]. cbn [fst snd] in *.
  unfold WaveParticles.body, rbind, Math_random, ret. cbn [fst snd].
  rewrite length_app, IH. cbn. lia.
Qed.

(** C2 (as amended).  For every list of particle positions, every
    connectionDistance and every maxConnections, the graph the build
    returns has at most max(1, maxConnections) pairs, hence at most
    maxConnections pairs whenever maxConnections >= 1; every stored
    pair (i, j) indexes two particles whose distance was strictly less
    than connectionDistance; no pair (i, i) is stored; and no pair is
    stored twice, in either order. *)
Theorem connections_invariants :
  forall (particlePositions : list Vector3) (connectionDistance : R)
         (maxConnections : Z),
    let g := WaveParticles.connections particlePositions connectionDistance
                                       maxConnections in
    (Z.of_nat (length g) <= Z.max 1 maxConnections)%Z /\
    ((1 <= maxConnections)%Z -> (Z.of_nat (length g) <= maxConnections)%Z) /\
    (forall i j : nat,
        (i, j) ∈ g ->
        exists a b,
          particlePositions !! i = Some a /\
          particlePositions !! j = Some b /\
          distanceTo a b < connectionDistance) /\
    (forall i : nat, (i, i) ∉ g) /\
    NoDup g /\
    (forall i j : nat, (i, j) ∈ g -> (j, i) ∉ g).
Proof.
  intros pp cd maxC g.
  assert (Hlen : (Z.of_nat (length g) <= Z.max 1 maxC)%Z).
  { apply outer_length. left. reflexivity. }
  assert (Hsc : scanned pp cd (WaveParticles.count pp) 0 g).
  { apply outer_scanned; [lia|]. repeat split; constructor. }
  destruct Hsc as (Hnd & Hst & _). rewrite Forall_forall in Hst.
  split; [exact Hlen|]. split; [lia|]. split; [|split; [|split]].
  - intros i j Hij. destruct (Hst _ Hij) as [Hlt Hnear]. cbn in Hlt, Hnear.
    unfold WaveParticles.count in Hlt.
    exists (pp !!! i), (pp !!! j).
    split; [apply list_lookup_lookup_total_lt; lia|].
    split; [apply list_lookup_lookup_total_lt; lia|exact Hnear].
  - intros i Hi. destruct (Hst _ Hi) as [Hlt _]. cbn in Hlt. lia.
  - exact Hnd.
  - intros i j Hij Hji.
    destruct (Hst _ Hij) as [Hlt _]. destruct (Hst _ Hji) as [Hlt' _].
    cbn in Hlt, Hlt'. lia.
Qed.

(** C2, counterexample.  Two particles at the same place, with
    connectionDistance 1 and maxConnections 0: the build returns one
    pair, more than maxConnections. *)
Lemma connections_invariants_counterexample :
  let origin := {| vx := 0; vy := 0; vz := 0 |} in
  WaveParticles.connections [origin; origin] 1 0 = [(0, 1)%nat] /\
  ~ (Z.of_nat (length (WaveParticles.connections [origin; origin] 1 0)) <= 0)%Z.
Proof.
  intros origin.
  assert (H : WaveParticles.connections [origin; origin] 1 0 = [(0, 1)%nat]).
  { unfold WaveParticles.connections. cbn -[ltb distanceTo].
    rewrite distanceTo_self, ltb_true by lra. reflexivity. }
  split; [exact H|]. rewrite H. cbn. lia.
Qed.

(** When every list counts as full, the inner loop stops at the first
    near pair of its row. *)
Lemma inner_first (particlePositions : list Vector3) (connectionDistance : R)
      (maxConnections : Z) :
  (maxConnections <= 0)%Z ->
  forall n i j,
    let r := WaveParticles.inner particlePositions connectionDistance
                                 maxConnections i j n [] in
    (r = [] /\
     forall j', (j <= j' < j + n)%nat ->
                ~ near particlePositions connectionDistance i j') \/
    (exists j', (j <= j' < j + n)%nat /\
                near particlePositions connectionDistance i j' /\
                (forall j'', (j <= j'' < j')%nat ->
                             ~ near particlePositions connectionDistance i j'') /\
                r = [(i, j')]).
Proof.
  intros Hmax. induction n as [|n IH]; intros i j r.
  - left. split; [reflexivity|]. intros j' Hj'. lia.
  - subst r. cbn -[ltb distanceTo]. destruct (ltb _ _) eqn:Hnear.
    + apply ltb_near in Hnear. right. exists j.
      split; [lia|]. split; [exact Hnear|]. split; [intros; lia|].
      unfold WaveParticles.full. cbn [length app].
      destruct (Z.leb_spec maxConnections (Z.of_nat 1)); [reflexivity|lia].
    + apply ltb_far in Hnear.
      destruct (IH i (S j)) as [[Hr Hnone]|(j' & Hj' & Hn & Hfirst & Hr)].
      * left. split; [exact Hr|]. intros j' Hj'.
        destruct (decide (j' = j)) as [->|Hne]; [exact Hnear|].
        apply Hnone. lia.
      * right. exists j'. split; [lia|]. split; [exact Hn|].
        split; [|exact Hr]. intros j'' Hj''.
        destruct (decide (j'' = j)) as [->|Hne]; [exact Hnear|].
        apply Hfirst. lia.
Qed.

(** C3 (as amended).  With maxConnections <= 0 the build returns after
    the first row of the scan: the graph holds at most one pair; a
    stored pair is (0, j) for the first particle j within
    connectionDistance of particle 0; and the graph is empty exactly
    when no particle is within connectionDistance of particle 0. *)
Theorem connections_nonpositive_cap :
  forall (particlePositions : list Vector3) (connectionDistance : R)
         (maxConnections : Z),
    (maxConnections <= 0)%Z ->
    let g := WaveParticles.connections particlePositions connectionDistance
                                       maxConnections in
    (length g <= 1)%nat /\
    (forall i j : nat,
        (i, j) ∈ g ->
        i = 0%nat /\ (0 < j < length particlePositions)%nat /\
        near particlePositions connectionDistance 0 j /\
        forall j', (0 < j' < j)%nat ->
                   ~ near particlePositions connectionDistance 0 j') /\
    (g = [] <->
     forall j, (0 < j < length particlePositions)%nat ->
               ~ near particlePositions connectionDistance 0 j).
Proof.
  intros pp cd maxC Hmax g. subst g. unfold WaveParticles.connections.
  unfold WaveParticles.count.
  destruct pp as [|v pp].
  - cbn. split; [lia|]. split.
    + intros i j Hij. apply elem_of_nil in Hij. contradiction.
    + split; [intros; lia|reflexivity].
  - cbn [length WaveParticles.outer]. unfold WaveParticles.count.
    cbn [length]. replace (S (length pp) - 1)%nat with (length pp) by lia.
    assert (Hfull : forall l, WaveParticles.full maxC l = true).
    { intros l. unfold WaveParticles.full. apply Z.leb_le. lia. }
    rewrite Hfull.
    destruct (inner_first (v :: pp) cd maxC Hmax (length pp) 0 1)
      as [[Hr Hnone]|(j' & Hj' & Hn & Hfirst & Hr)]; rewrite Hr.
    + split; [cbn; lia|]. split.
      * intros i j Hij. apply elem_of_nil in Hij. contradiction.
      * split; [|reflexivity]. intros _ j Hj. apply Hnone. lia.
    + split; [cbn; lia|]. split.
      * intros i j Hij. apply list_elem_of_singleton in Hij.
        injection Hij as -> ->.
        split; [reflexivity|]. split; [lia|]. split; [exact Hn|].
        intros j'' Hj''. apply Hfirst. lia.
      * split; [discriminate|]. intros Hnone. exfalso.
        apply (Hnone j'); [lia|exact Hn].
Qed.

(** Two particles 100 apart, connectionDistance 8, maxConnections 0. *)
Lemma connections_nonpositive_cap_witness :
  let far := {| vx := 100; vy := 0; vz := 0 |} in
  let origin := {| vx := 0; vy := 0; vz := 0 |} in
  (length (WaveParticles.connections [origin; far] 8 0) <= 1)%nat.
Proof.
  intros far origin.
  destruct (connections_nonpositive_cap [origin; far] 8 0) as [H _];
    [lia|exact H].
Defined.

(** C3, counterexample.  Particles at (0, 0, 0) and (1, 0, 0) with
    connectionDistance 8 and maxConnections 0: the pair is scanned and
    stored, and the graph is not empty. *)
Lemma connections_nonpositive_cap_counterexample :
  WaveParticles.connections
    [{| vx := 0; vy := 0; vz := 0 |}; {| vx := 1; vy := 0; vz := 0 |}] 8 0
  = [(0, 1)%nat].
Proof.
  unfold WaveParticles.connections. cbn -[ltb distanceTo].
  rewrite ltb_true; [reflexivity|].
  unfold distanceTo. cbn.
  replace ((0 - 1) * (0 - 1) + (0 - 0) * (0 - 0) + (0 - 0) * (0 - 0))
    with 1 by ring.
  rewrite sqrt_1. lra.
Qed.

(** ** C4: generators at a count of zero or below *)

Lemma Float32Array_new_negative (n : Z) :
  (n < 0)%Z -> Float32Array_new n = RangeError.
Proof.
  intros Hn. unfold Float32Array_new.
  destruct (Z.ltb_spec n 0); [reflexivity|lia].
Qed.

(** C4 (as amended).  With a count of 0 each particle-set generator
    (galaxy field, wave-particle cloud, Great Wave cloud) returns, with
    no error and no random draw, a particle set with zero particles and
    empty position and colour buffers (and the cloud an empty graph);
    with a negative count each of them raises a RangeError when it
    allocates its position buffer. *)
Theorem generators_nonpositive_count :
  forall (three : Three) (rng : nat -> R) (n : nat)
         (galaxyRadius armCount barLength bulgeSize spiralTightness : R)
         (particleColor : string) (connectionDistance : R)
         (maxConnections : Z),
    Galaxy.useMemo three galaxyRadius armCount barLength bulgeSize
      spiralTightness 0 rng n = (Ok empty_set, n) /\
    WaveParticles.useMemo three particleColor 0 connectionDistance
      maxConnections rng n = (Ok (empty_set, []), n) /\
    GreatWave.useMemo three galaxyRadius 0 rng n = (Ok empty_set, n) /\
    forall count : Z,
      (count < 0)%Z ->
      Galaxy.useMemo three galaxyRadius armCount barLength bulgeSize
        spiralTightness count rng n = (RangeError, n) /\
      WaveParticles.useMemo three particleColor count connectionDistance
        maxConnections rng n = (RangeError, n) /\
      GreatWave.useMemo three galaxyRadius count rng n = (RangeError, n).
Proof.
  intros three rng n gR aC bL bS sT pc cd maxC.
  split; [reflexivity|]. split; [reflexivity|]. split; [reflexivity|].
  intros count Hcount.
  unfold Galaxy.useMemo, WaveParticles.useMemo, GreatWave.useMemo.
  rewrite Float32Array_new_negative by lia. repeat split.
Qed.

Lemma half_source_unit : unit_source half_source.
Proof. intros n. unfold half_source. lra. Qed.

(** C4, counterexample.  With count = -1 the galaxy generator does not
    return an empty particle set: it raises a RangeError. *)
Lemma generators_nonpositive_count_counterexample :
  Galaxy.useMemo grey_three 25 4 8 3 (1 / 2) (-1) half_source 0%nat
  = (RangeError, 0%nat).
Proof. reflexivity. Qed.

(** ** C5, C7: where the galaxy generator places its stars *)

Lemma write_position_length i x y z (p : buffer) :
  length (write_position i x y z p) = length p.
Proof. unfold write_position. rewrite !length_insert. reflexivity. Qed.

Lemma write_position_x i x y z (p : buffer) :
  (i * 3 + 2 < length p)%nat -> write_position i x y z p !!! (i * 3)%nat = x.
Proof.
  intros Hi. unfold write_position.
  rewrite !list_lookup_total_insert_ne by lia.
  apply list_lookup_total_insert_eq. lia.
Qed.

Lemma write_position_z i x y z (p : buffer) :
  (i * 3 + 2 < length p)%nat ->
  write_position i x y z p !!! (i * 3 + 2)%nat = z.
Proof.
  intros Hi. unfold write_position.
  apply list_lookup_total_insert_eq. rewrite !length_insert. lia.
Qed.

Lemma write_position_other i x y z (p : buffer) j :
  (j / 3 <> i)%nat -> write_position i x y z p !!! j = p !!! j.
Proof.
  intros Hj. unfold write_position.
  rewrite !list_lookup_total_insert_ne by lia. reflexivity.
Qed.

Section GalaxyLoop.

Variable three : Three.
Variables galaxyRadius armCount barLength bulgeSize spiralTightness : R.
Variable rng : nat -> R.

Local Abbreviation place :=
  (Galaxy.place galaxyRadius armCount barLength bulgeSize spiralTightness).
Local Abbreviation body :=
  (Galaxy.body three galaxyRadius armCount barLength bulgeSize
               spiralTightness).

Lemma Galaxy_body_positions i ps c :
  positions (body i ps rng c).1 =
  let '(x, y, z) := (place rng c).1 in write_position i x y z (positions ps).
Proof.
  unfold Galaxy.body, rbind.
  destruct (Galaxy.place _ _ _ _ _ rng c) as [[[x y] z] c1].
  destruct (Galaxy.star_color _ _ _ _ _ c1) as [color c2]. reflexivity.
Qed.

(** After [k] iterations the buffer keeps its length, and the x and z
    slots of every particle below [k] hold what some call of [place]
    returned. *)
Lemma Galaxy_loop_positions k ps0 c0 :
  let ps := (for_rand k body ps0 rng c0).1 in
  length (positions ps) = length (positions ps0) /\
  forall i, (i < k)%nat -> (i * 3 + 2 < length (positions ps0))%nat ->
    exists n x y z,
      (place rng n).1 = (x, y, z) /\
      positions ps !!! (i * 3)%nat = x /\
      positions ps !!! (i * 3 + 2)%nat = z.
Proof.
  induction k as [|k [IHlen IH]]; cbn zeta.
  - split; [reflexivity|]. intros i Hi. lia.
  - unfold for_rand in *. rewrite for_loop_S.
    set (st := for_loop k _ _) in *. cbn zeta in IHlen, IH.
    rewrite Galaxy_body_positions.
    destruct (place rng st.2).1 as [[x y] z] eqn:Hplace.
    split; [rewrite write_position_length; exact IHlen|].
    intros i Hi Hlen.
    destruct (decide (i = k)) as [->|Hne].
    + exists st.2, x, y, z. split; [exact Hplace|].
      split; [apply write_position_x|apply write_position_z]; lia.
    + destruct (IH i) as (n & x' & y' & z' & Hn & Hx & Hz); [lia|lia|].
      exists n, x', y', z'. split; [exact Hn|].
      rewrite !write_position_other by lia. split; assumption.
Qed.

Lemma Galaxy_useMemo_positions particleCount c0 ps c1 :
  Galaxy.useMemo three galaxyRadius armCount barLength bulgeSize
    spiralTightness particleCount rng c0 = (Ok ps, c1) ->
  forall i, (Z.of_nat i < particleCount)%Z ->
    exists n x y z,
      (place rng n).1 = (x, y, z) /\
      positions ps !! (i * 3)%nat = Some x /\
      positions ps !! (i * 3 + 2)%nat = Some z.
Proof.
  unfold Galaxy.useMemo, Float32Array_new. cbv zeta.
  destruct (_ || _) eqn:Hrange; [discriminate|].
  unfold rbind, ret.
  pose proof (Galaxy_loop_positions (Z.to_nat particleCount)
    {| positions := replicate (Z.to_nat (particleCount * 3)) (Fin 0);
       colors := replicate (Z.to_nat (particleCount * 3)) (Fin 0) |} c0)
    as Hloop.
  destruct (for_rand _ body _ rng c0) as [ps' c'].
  cbn [fst positions] in Hloop. destruct Hloop as [Hlen Hloop].
  rewrite length_replicate in Hlen, Hloop.
  intros [= <- <-] i Hi.
  destruct (Hloop i) as (n & x & y & z & Hn & Hx & Hz); [lia|lia|].
  exists n, x, y, z. split; [exact Hn|].
  split; apply list_lookup_alt; split; try assumption; lia.
Qed.

End GalaxyLoop.

Lemma sqrt_le_bound (a b : R) : 0 <= b -> a <= b * b -> sqrt a <= b.
Proof.
  intros Hb Ha.
  destruct (Rle_lt_dec 0 a) as [Ha0|Ha0].
  - rewrite <- (sqrt_square b Hb). apply sqrt_le_1_alt, Ha.
  - rewrite sqrt_neg_0 by lra. exact Hb.
Qed.

(** A point within [rho] of the axis stays within [rho + 0.3] after the
    jitter of lines 68 and 70. *)
Lemma jitter_bound (x0 z0 rho u1 u3 : R) :
  0 <= rho -> x0 * x0 + z0 * z0 <= rho * rho ->
  0 <= u1 < 1 -> 0 <= u3 < 1 ->
  sqrt ((x0 + (u1 - 0.5) * 0.3) * (x0 + (u1 - 0.5) * 0.3)
        + (z0 + (u3 - 0.5) * 0.3) * (z0 + (u3 - 0.5) * 0.3)) <= rho + 0.3.
Proof.
  intros Hrho Hxz Hu1 Hu3. apply sqrt_le_bound; [lra|].
  assert (Hx : - rho <= x0 <= rho) by (split; nra).
  assert (Hz : - rho <= z0 <= rho) by (split; nra).
  set (j1 := (u1 - 0.5) * 0.3). set (j3 := (u3 - 0.5) * 0.3).
  assert (Hj1 : -0.15 <= j1 <= 0.15) by (unfold j1; lra).
  assert (Hj3 : -0.15 <= j3 <= 0.15) by (unfold j3; lra).
  assert (H1 : x0 * j1 <= rho * 0.15) by nra.
  assert (H3 : z0 * j3 <= rho * 0.15) by nra.
  assert (H2 : j1 * j1 <= 0.0225) by nra.
  assert (H4 : j3 * j3 <= 0.0225) by nra.
  nra.
Qed.

(** Lines 41 and 43: the bulge point lies within [|r|] of the axis. *)
Lemma bulge_planar (r phi theta : R) :
  (r * sin phi * cos theta) * (r * sin phi * cos theta)
  + (r * cos phi) * (r * cos phi) <= r * r.
Proof.
  pose proof (sin2_cos2 phi) as Hphi. pose proof (sin2_cos2 theta) as Hth.
  unfold Rsqr in Hphi, Hth.
  set (s := sin phi) in *. set (c := cos phi) in *.
  set (t := cos theta) in *. set (t' := sin theta) in *.
  assert (Ht : t * t <= 1) by nra.
  assert (Hs : 0 <= s * s) by nra.
  assert (Hst : s * s * (t * t) <= s * s) by nra.
  assert (Hr : 0 <= r * r) by nra.
  replace (r * s * t * (r * s * t) + r * c * (r * c))
    with (r * r * (s * s * (t * t) + c * c)) by ring.
  nra.
Qed.

(** Lines 62-63: the spiral point lies [radius] from the axis. *)
Lemma spiral_planar (radius f : R) :
  (cos f * radius) * (cos f * radius) + (sin f * radius) * (sin f * radius)
  = radius * radius.
Proof.
  pose proof (sin2_cos2 f) as Hf. unfold Rsqr in Hf.
  replace (cos f * radius * (cos f * radius) + sin f * radius * (sin f * radius))
    with (radius * radius * (sin f * sin f + cos f * cos f)) by ring.
  rewrite Hf. ring.
Qed.

Lemma Math_acos_finite (a : R) : -1 <= a <= 1 -> Math_acos a = Fin (acos a).
Proof.
  intros [H1 H2]. unfold Math_acos.
  destruct (Rle_dec (-1) a); [|contradiction].
  destruct (Rle_dec a 1); [reflexivity|contradiction].
Qed.

Lemma Math_log_finite (a : R) : 0 < a -> Math_log a = Fin (ln a).
Proof.
  intros H. unfold Math_log. destruct (Rlt_dec 0 a); [reflexivity|contradiction].
Qed.

Lemma Math_log_nonfinite (a : R) : a <= 0 -> Math_log a = NonFin.
Proof.
  intros H. unfold Math_log. destruct (Rlt_dec 0 a); [lra|reflexivity].
Qed.

Section GalaxyPlace.

Variables galaxyRadius armCount barLength bulgeSize spiralTightness : R.
Variable rng : nat -> R.
Hypothesis rng_unit : unit_source rng.
Hypothesis galaxyRadius_nonneg : 0 <= galaxyRadius.

Local Abbreviation place :=
  (Galaxy.place galaxyRadius armCount barLength bulgeSize spiralTightness).
Local Abbreviation sampled_radius := (sampled_radius galaxyRadius rng).

Lemma sampled_radius_range n : 0 <= sampled_radius n <= galaxyRadius.
Proof using rng_unit galaxyRadius_nonneg.
  unfold sampled_radius. pose proof (rng_unit (S n)). split; nra.
Qed.

(** With a bulge size above 0 and an arm count other than 0, a star is
    placed at finite x and z, within 0.3 of its sampled radius. *)
Lemma place_bounded n :
  armCount <> 0 -> 0 < bulgeSize ->
  exists x y z,
    (place rng n).1 = (Fin x, y, Fin z) /\
    sqrt (x * x + z * z) <= galaxyRadius + 0.3 /\
    (sampled_radius n < bulgeSize -> sqrt (x * x + z * z) <= bulgeSize + 0.3).
Proof using rng_unit galaxyRadius_nonneg.
  intros HaC HbS.
  pose proof (sampled_radius_range n) as Hrad.
  pose proof (rng_unit (S n)) as Hu.
  unfold place, Galaxy.place, rbind, Math_random. cbv zeta.
  fold (sampled_radius n). set (radius := sampled_radius n) in *.
  unfold ltb at 1. destruct (Rlt_dec radius bulgeSize) as [Hb|Hb].
  - unfold Galaxy.bulge, rbind, Math_random, ret. cbv zeta. cbn [fst snd].
    rewrite Math_acos_finite
      by (pose proof (rng_unit (S (S n))); lra).
    cbn [lift1 bind]. do 3 eexists. split; [reflexivity|].
    pose proof (rng_unit (S (S (S (S n))))) as Hu5.
    set (r := radius * (0.3 + rng (S (S (S (S n)))) * 0.7)).
    assert (Hdist : forall rho, radius <= rho ->
      sqrt ((r * sin (acos (2 * rng (S (S n)) - 1))
               * cos (rng (S (S (S n))) * PI * 2)
             + (rng (S (S (S (S (S n))))) - 0.5) * 0.3)
            * (r * sin (acos (2 * rng (S (S n)) - 1))
                 * cos (rng (S (S (S n))) * PI * 2)
               + (rng (S (S (S (S (S n))))) - 0.5) * 0.3)
            + (r * cos (acos (2 * rng (S (S n)) - 1))
               + (rng (S (S (S (S (S (S (S n))))))) - 0.5) * 0.3)
              * (r * cos (acos (2 * rng (S (S n)) - 1))
                 + (rng (S (S (S (S (S (S (S n))))))) - 0.5) * 0.3))
      <= rho + 0.3).
    { intros rho Hrho. apply jitter_bound; [lra| |apply rng_unit..].
      eapply Rle_trans; [apply bulge_planar|].
      assert (Hr : 0 <= r <= radius) by (unfold r; split; nra).
      nra. }
    split; [apply Hdist; lra|]. intros _. apply Hdist. lra.
  - unfold Galaxy.spiral, rbind, Math_random, ret. cbv zeta. cbn [fst snd].
    assert (HgR : radius < galaxyRadius).
    { unfold radius, sampled_radius in *. nra. }
    rewrite (js_div_nonzero _ armCount) by exact HaC.
    rewrite (js_div_nonzero radius bulgeSize) by lra.
    rewrite (js_div_nonzero _ (galaxyRadius - bulgeSize)) by lra.
    cbn [bind].
    rewrite Math_log_finite by (apply Rdiv_lt_0_compat; lra).
    cbn [bind lift1 lift2].
    assert (Hdist : forall f,
      sqrt ((cos f * radius + (rng (S (S (S n))) - 0.5) * 0.3)
            * (cos f * radius + (rng (S (S (S n))) - 0.5) * 0.3)
            + (sin f * radius + (rng (S (S (S (S (S n))))) - 0.5) * 0.3)
              * (sin f * radius + (rng (S (S (S (S (S n))))) - 0.5) * 0.3))
      <= galaxyRadius + 0.3).
    { intros f. apply jitter_bound; [lra| |apply rng_unit..].
      rewrite spiral_planar. nra. }
    destruct (ltb radius barLength); cbn [bind lift1 lift2];
      do 3 eexists; (split; [reflexivity|]);
      (split; [apply Hdist|intros Hlt; contradiction]).
Qed.

(** With a bulge size of 0 or below, the bulge test fails and the
    logarithm of line 57 is not finite: the star's x and z are not
    finite either. *)
Lemma place_nonfinite n :
  bulgeSize <= 0 ->
  ~ sampled_radius n < bulgeSize /\
  exists y, (place rng n).1 = (NonFin, y, NonFin).
Proof using rng_unit galaxyRadius_nonneg.
  intros HbS.
  pose proof (sampled_radius_range n) as Hrad.
  split; [lra|].
  unfold place, Galaxy.place, rbind, Math_random. cbv zeta.
  fold (sampled_radius n). set (radius := sampled_radius n) in *.
  rewrite ltb_false by lra.
  unfold Galaxy.spiral, rbind, Math_random, ret. cbv zeta. cbn [fst snd].
  assert (Hlog : (let* q := js_div radius bulgeSize in
                  let* l := Math_log q in
                  Fin (0 + l * spiralTightness)) = NonFin).
  { unfold js_div. destruct (Req_dec_T bulgeSize 0) as [H0|H0];
      [reflexivity|]. cbn [bind].
    rewrite Math_log_nonfinite; [reflexivity|].
    assert (Hinv : / bulgeSize < 0) by (apply Rinv_lt_0_compat; lra).
    unfold Rdiv. nra. }
  assert (Hspiral : forall armAngle,
    (let* a := armAngle in
     let* q := js_div radius bulgeSize in
     let* l := Math_log q in
     Fin (a + l * spiralTightness)) = NonFin).
  { intros [a|]; [|reflexivity]. cbn [bind].
    unfold js_div in *. destruct (Req_dec_T bulgeSize 0); [reflexivity|].
    cbn [bind] in *. destruct (Math_log _); [discriminate|reflexivity]. }
  rewrite Hspiral. cbn [lift1 lift2 bind]. eexists. reflexivity.
Qed.

End GalaxyPlace.

(** C7 (as amended).  Let the random source stay in [0, 1), the galaxy
    radius be 0 or more, the bulge size be above 0 and the arm count be
    other than 0.  Then every particle the galaxy generator produces
    has finite x and z, its planar distance sqrt(x^2 + z^2) from the
    origin is at most galaxyRadius + 0.3, and when it was placed by the
    bulge branch (its sampled radius is below bulgeSize) the distance
    is at most bulgeSize + 0.3. *)
Theorem Galaxy_planar_distance :
  forall (three : Three) (rng : nat -> R)
         (galaxyRadius armCount barLength bulgeSize spiralTightness : R)
         (particleCount : Z) (c0 c1 : nat) (ps : ParticleSet),
    unit_source rng ->
    0 <= galaxyRadius -> armCount <> 0 -> 0 < bulgeSize ->
    Galaxy.useMemo three galaxyRadius armCount barLength bulgeSize
      spiralTightness particleCount rng c0 = (Ok ps, c1) ->
    forall i : nat,
      (Z.of_nat i < particleCount)%Z ->
      exists (n : nat) (x z : R),
        positions ps !! (i * 3)%nat = Some (Fin x) /\
        positions ps !! (i * 3 + 2)%nat = Some (Fin z) /\
        sqrt (x * x + z * z) <= galaxyRadius + 0.3 /\
        (sampled_radius galaxyRadius rng n < bulgeSize ->
         sqrt (x * x + z * z) <= bulgeSize + 0.3) /\
        exists y,
          (Galaxy.place galaxyRadius armCount barLength bulgeSize
                        spiralTightness rng n).1 = (Fin x, y, Fin z).
Proof.
  intros three rng gR aC bL bS sT count c0 c1 ps Hrng HgR HaC HbS Hrun i Hi.
  destruct (Galaxy_useMemo_positions _ _ _ _ _ _ _ _ _ _ _ Hrun i Hi)
    as (n & x & y & z & Hplace & Hx & Hz).
  destruct (place_bounded gR aC bL bS sT rng Hrng HgR n HaC HbS)
    as (x' & y' & z' & Hplace' & Hdist & Hbulge).
  rewrite Hplace in Hplace'. injection Hplace' as -> -> ->.
  exists n, x', z'. repeat split; try assumption.
  exists y'. exact Hplace.
Qed.

(** With a count of 1 the allocation succeeds and the generator returns. *)
Lemma Galaxy_useMemo_runs three galaxyRadius armCount barLength bulgeSize
      spiralTightness rng c0 :
  exists ps c1,
    Galaxy.useMemo three galaxyRadius armCount barLength bulgeSize
      spiralTightness 1 rng c0 = (Ok ps, c1).
Proof.
  unfold Galaxy.useMemo. cbv zeta.
  change (Float32Array_new (1 * 3)) with (Ok (replicate 3 (Fin 0))).
  unfold rbind, ret. destruct (for_rand _ _ _ rng c0) as [ps c1].
  exists ps, c1. reflexivity.
Qed.

(** One star with the default parameters and every draw 1/2. *)
Lemma Galaxy_planar_distance_witness :
  exists (ps : ParticleSet) (x z : R),
    positions ps !! 0%nat = Some (Fin x) /\
    positions ps !! 2%nat = Some (Fin z) /\
    sqrt (x * x + z * z) <= 25 + 0.3.
Proof.
  destruct (Galaxy_useMemo_runs grey_three 25 4 8 3 (1 / 2) half_source 0%nat)
    as (ps & c1 & Hrun).
  destruct (Galaxy_planar_distance grey_three half_source 25 4 8 3 (1 / 2)
              1 0%nat c1 ps half_source_unit) with (i := 0%nat)
    as (n & x & z & Hx & Hz & Hdist & _); [lra|lra|lra|exact Hrun|lia|].
  exists ps, x, z. auto.
Defined.

(** C7, counterexample.  With an arm count of 0 (radius 25, bulge 3,
    every draw 1/2) the star is placed by the spiral branch, whose arm
    angle is 0 / 0: its x is not a finite number, so its planar
    distance is not bounded by anything.  And with a galaxy radius of
    -25 (four arms) the star is placed by the bulge branch at finite x
    and z, whose planar distance is not at most -25 + 0.3. *)
Lemma Galaxy_planar_distance_counterexample :
  (exists y z,
      (Galaxy.place 25 0 8 3 (1 / 2) half_source 0%nat).1 = (NonFin, y, z)) /\
  (exists x y z,
      (Galaxy.place (-25) 4 8 3 (1 / 2) half_source 0%nat).1
        = (Fin x, y, Fin z) /\
      ~ sqrt (x * x + z * z) <= -25 + 0.3).
Proof.
  split.
  - unfold Galaxy.place, rbind, Math_random, half_source. cbv zeta.
    rewrite ltb_false by lra.
    unfold Galaxy.spiral, rbind, Math_random, ret. cbv zeta. cbn [fst snd].
    rewrite js_div_zero. cbn [bind lift1 lift2]. do 2 eexists. reflexivity.
  - unfold Galaxy.place, rbind, Math_random, half_source. cbv zeta.
    rewrite ltb_true by lra.
    unfold Galaxy.bulge, rbind, Math_random, ret. cbv zeta. cbn [fst snd].
    rewrite Math_acos_finite by lra. cbn [lift1 bind].
    do 3 eexists. split; [reflexivity|].
    intros H.
    match type of H with sqrt ?a <= _ => pose proof (sqrt_pos a) end.
    lra.
Qed.

(** C5 (as amended).  Let the random source stay in [0, 1) and the
    galaxy radius be 0 or more.  With bulgeSize <= 0 no particle of the
    galaxy generator takes the bulge branch; the logarithm of
    radius / bulgeSize is taken as it stands, with no positive value
    put in place of bulgeSize, so the spiral angle is not finite, and
    neither are the x and z of any particle. *)
Theorem Galaxy_nonpositive_bulge :
  forall (three : Three) (rng : nat -> R)
         (galaxyRadius armCount barLength bulgeSize spiralTightness : R)
         (particleCount : Z) (c0 c1 : nat) (ps : ParticleSet),
    unit_source rng ->
    0 <= galaxyRadius -> bulgeSize <= 0 ->
    Galaxy.useMemo three galaxyRadius armCount barLength bulgeSize
      spiralTightness particleCount rng c0 = (Ok ps, c1) ->
    forall i : nat,
      (Z.of_nat i < particleCount)%Z ->
      exists n : nat,
        ~ sampled_radius galaxyRadius rng n < bulgeSize /\
        positions ps !! (i * 3)%nat = Some NonFin /\
        positions ps !! (i * 3 + 2)%nat = Some NonFin /\
        exists y,
          (Galaxy.place galaxyRadius armCount barLength bulgeSize
                        spiralTightness rng n).1 = (NonFin, y, NonFin).
Proof.
  intros three rng gR aC bL bS sT count c0 c1 ps Hrng HgR HbS Hrun i Hi.
  destruct (Galaxy_useMemo_positions _ _ _ _ _ _ _ _ _ _ _ Hrun i Hi)
    as (n & x & y & z & Hplace & Hx & Hz).
  destruct (place_nonfinite gR aC bL bS sT rng Hrng HgR n HbS)
    as (Hbranch & y' & Hplace').
  rewrite Hplace in Hplace'. injection Hplace' as -> -> ->.
  exists n. repeat split; try assumption.
  exists y'. exact Hplace.
Qed.

(** One star with bulgeSize = 0 and every draw 1/2. *)
Lemma Galaxy_nonpositive_bulge_witness :
  exists ps : ParticleSet,
    positions ps !! 0%nat = Some NonFin /\
    positions ps !! 2%nat = Some NonFin.
Proof.
  destruct (Galaxy_useMemo_runs grey_three 25 4 8 0 (1 / 2) half_source 0%nat)
    as (ps & c1 & Hrun).
  destruct (Galaxy_nonpositive_bulge grey_three half_source 25 4 8 0 (1 / 2)
              1 0%nat c1 ps half_source_unit) with (i := 0%nat)
    as (n & _ & Hx & Hz & _); [lra|lra|exact Hrun|lia|].
  exists ps. auto.
Defined.

(** C5, counterexample.  With bulgeSize = 0 (radius 25, four arms,
    every draw 1/2) the one star generated has an x that is not a
    finite number: no positive value stood in for bulgeSize.  And with
    a galaxy radius of -25 the sampled radius -12.5 is below
    bulgeSize = 0: the star takes the bulge branch, which places it at
    finite x and z. *)
Lemma Galaxy_nonpositive_bulge_counterexample :
  (exists (ps : ParticleSet) (c1 : nat),
      Galaxy.useMemo grey_three 25 4 8 0 (1 / 2) 1 half_source 0%nat
        = (Ok ps, c1) /\
      positions ps !! 0%nat = Some NonFin) /\
  (sampled_radius (-25) half_source 0 < 0 /\
   exists x y z,
     (Galaxy.place (-25) 4 8 0 (1 / 2) half_source 0%nat).1
       = (Fin x, y, Fin z)).
Proof.
  split.
  - destruct (Galaxy_useMemo_runs grey_three 25 4 8 0 (1 / 2) half_source 0)
      as (ps & c1 & Hrun).
    exists ps, c1. split; [exact Hrun|].
    destruct (Galaxy_useMemo_positions _ _ _ _ _ _ _ _ _ _ _ Hrun 0%nat)
      as (n & x & y & z & Hplace & Hx & _); [lia|].
    destruct (place_nonfinite 25 4 8 0 (1 / 2) half_source half_source_unit)
      with (n := n) as (_ & y' & Hplace'); [lra|lra|].
    rewrite Hplace in Hplace'. injection Hplace' as -> _ _. exact Hx.
  - split; [unfold sampled_radius, half_source; lra|].
    unfold Galaxy.place, rbind, Math_random, half_source. cbv zeta.
    rewrite ltb_true by lra.
    unfold Galaxy.bulge, rbind, Math_random, ret. cbv zeta. cbn [fst snd].
    rewrite Math_acos_finite by lra. cbn [lift1 bind].
    do 3 eexists. reflexivity.
Qed.

(** * Further properties of the components *)

(** ** Loops that push *)

Lemma for_loop_push {A : Type} (g : nat -> list A) (n : nat) (init : list A) :
  for_loop n (fun i acc => acc ++ g i) init = init ++ flat_map g (seq 0 n).
Proof.
  induction n as [|n IH]; [cbn; rewrite app_nil_r; reflexivity|].
  rewrite for_loop_S, IH, seq_S, flat_map_app. cbn.
  rewrite app_nil_r, app_assoc. reflexivity.
Qed.

Lemma for_loop_push2 {A B : Type} (g : nat -> list A) (h : nat -> list B)
      (n : nat) (p0 : list A) (q0 : list B) :
  for_loop n (fun i '(p, q) => (p ++ g i, q ++ h i)) (p0, q0)
  = (p0 ++ flat_map g (seq 0 n), q0 ++ flat_map h (seq 0 n)).
Proof.
  induction n as [|n IH]; [cbn; rewrite !app_nil_r; reflexivity|].
  rewrite for_loop_S, IH, seq_S, !flat_map_app. cbn.
  rewrite !app_nil_r, !app_assoc. reflexivity.
Qed.

Lemma flat_map_chunks_length {A : Type} (g : nat -> list A) (c n : nat) :
  (forall k, length (g k) = c) ->
  length (flat_map g (seq 0 n)) = (n * c)%nat.
Proof.
  intros Hc. induction n as [|n IH]; [reflexivity|].
  rewrite seq_S, flat_map_app, length_app, IH. cbn.
  rewrite app_nil_r, Hc. lia.
Qed.

Lemma flat_map_chunks_lookup {A : Type} (g : nat -> list A) (c n k r : nat) :
  (forall k, length (g k) = c) ->
  (k < n)%nat -> (r < c)%nat ->
  flat_map g (seq 0 n) !! (k * c + r)%nat = g k !! r.
Proof.
  intros Hc Hk Hr. induction n as [|n IH]; [lia|].
  rewrite seq_S, flat_map_app. cbn. rewrite app_nil_r.
  pose proof (flat_map_chunks_length g c n Hc) as Hlen.
  destruct (decide (k = n)) as [->|Hne].
  - rewrite lookup_app_r by lia. f_equal. lia.
  - rewrite lookup_app_l by nia. apply IH. lia.
Qed.

(** ** The surface grids *)

Lemma triangles_cells (segments : Z) :
  triangles segments =
  flat_map (fun i => flat_map (cell_indices segments i)
                              (seq 0 (Z.to_nat segments)))
           (seq 0 (Z.to_nat segments)).
Proof.
  unfold triangles.
  rewrite (for_loop_ext _ _
             (fun i acc => acc ++ flat_map (cell_indices segments i)
                                           (seq 0 (Z.to_nat segments)))).
  - rewrite for_loop_push. reflexivity.
  - intros i acc. rewrite <- for_loop_push. apply for_loop_ext.
    intros j acc'. unfold cell_indices. rewrite <- app_assoc. reflexivity.
Qed.

Lemma cell_indices_length segments i j :
  length (cell_indices segments i j) = 6%nat.
Proof. reflexivity. Qed.

Lemma triangles_length (segments : Z) :
  length (triangles segments)
  = (Z.to_nat segments * (Z.to_nat segments * 6))%nat.
Proof.
  rewrite triangles_cells.
  apply flat_map_chunks_length. intros i.
  apply flat_map_chunks_length. intros j. reflexivity.
Qed.

Lemma triangles_lookup (segments : Z) (i j r : nat) :
  (i < Z.to_nat segments)%nat -> (j < Z.to_nat segments)%nat -> (r < 6)%nat ->
  triangles segments !! ((i * Z.to_nat segments + j) * 6 + r)%nat
  = cell_indices segments i j !! r.
Proof.
  intros Hi Hj Hr. rewrite triangles_cells.
  replace ((i * Z.to_nat segments + j) * 6 + r)%nat
    with (i * (Z.to_nat segments * 6) + (j * 6 + r))%nat by lia.
  rewrite (flat_map_chunks_lookup _ (Z.to_nat segments * 6)); [|..|nia].
  - apply flat_map_chunks_lookup; [reflexivity|lia|lia].
  - intros k. apply flat_map_chunks_length. reflexivity.
  - exact Hi.
Qed.

Lemma WaveField_vertices_grid (segments : Z) :
  WaveField.vertices segments =
  (grid_of (WaveField_vertex segments) (Z.to_nat (segments + 1)),
   grid_of (fun _ _ => [Fin 0; Fin 1; Fin 0]) (Z.to_nat (segments + 1))).
Proof.
  unfold WaveField.vertices, grid_of.
  set (n := Z.to_nat (segments + 1)).
  etransitivity;
    [|exact (for_loop_push2
               (fun i => flat_map (WaveField_vertex segments i) (seq 0 n))
               (fun i => flat_map (fun _ => [Fin 0; Fin 1; Fin 0]) (seq 0 n))
               n [] [])].
  apply for_loop_ext.
  intros i [p q]. rewrite <- for_loop_push2. reflexivity.
Qed.

Lemma GreatWaveSurface_vertices_grid (galaxyRadius : R) (segments : Z) :
  GreatWaveSurface.vertices galaxyRadius segments =
  (grid_of (GreatWaveSurface_vertex galaxyRadius segments)
           (Z.to_nat (segments + 1)),
   grid_of (fun _ _ => [Fin 0; Fin 1; Fin 0]) (Z.to_nat (segments + 1))).
Proof.
  unfold GreatWaveSurface.vertices, grid_of.
  set (n := Z.to_nat (segments + 1)).
  etransitivity;
    [|exact (for_loop_push2
               (fun i => flat_map (GreatWaveSurface_vertex galaxyRadius
                                                            segments i)
                                  (seq 0 n))
               (fun i => flat_map (fun _ => [Fin 0; Fin 1; Fin 0]) (seq 0 n))
               n [] [])].
  apply for_loop_ext.
  intros i [p q]. rewrite <- for_loop_push2. reflexivity.
Qed.

Lemma grid_of_length (vertex : nat -> nat -> list num) (n : nat) :
  (forall i j, length (vertex i j) = 3%nat) ->
  length (grid_of vertex n) = (n * (n * 3))%nat.
Proof.
  intros Hv. apply flat_map_chunks_length. intros i.
  apply flat_map_chunks_length. intros j. apply Hv.
Qed.

Lemma grid_of_lookup (vertex : nat -> nat -> list num) (n i j r : nat) :
  (forall i j, length (vertex i j) = 3%nat) ->
  (i < n)%nat -> (j < n)%nat -> (r < 3)%nat ->
  grid_of vertex n !! vertex_slot n i j r = vertex i j !! r.
Proof.
  intros Hv Hi Hj Hr. unfold grid_of, vertex_slot.
  replace ((i * n + j) * 3 + r)%nat with (i * (n * 3) + (j * 3 + r))%nat
    by lia.
  rewrite (flat_map_chunks_lookup _ (n * 3)); [|..|nia].
  - apply flat_map_chunks_lookup; [apply Hv|lia|lia].
  - intros k. apply flat_map_chunks_length. apply Hv.
  - exact Hi.
Qed.

Lemma surface_positions_length (galaxyRadius : R) (segments : Z) :
  length (grid_positions (WaveField.useMemo segments))
  = (Z.to_nat (segments + 1) * Z.to_nat (segments + 1) * 3)%nat /\
  length (grid_positions (GreatWaveSurface.useMemo galaxyRadius segments))
  = (Z.to_nat (segments + 1) * Z.to_nat (segments + 1) * 3)%nat.
Proof.
  unfold WaveField.useMemo, GreatWaveSurface.useMemo. cbv zeta.
  rewrite WaveField_vertices_grid, GreatWaveSurface_vertices_grid.
  cbn [grid_positions]. rewrite !grid_of_length by reflexivity. lia.
Qed.

(** X1.  Both surfaces memoise (segments + 1)^2 vertices, each with
    three position and three normal numbers, and 2 * segments^2
    triangles, three indices each; a negative segment count gives none
    of either. *)
Theorem surface_grid_sizes :
  forall (galaxyRadius : R) (segments : Z),
    let n := Z.to_nat (segments + 1) in
    let m := Z.to_nat segments in
    let flat := WaveField.useMemo segments in
    let ring := GreatWaveSurface.useMemo galaxyRadius segments in
    length (grid_positions flat) = (n * n * 3)%nat /\
    length (grid_normals flat) = (n * n * 3)%nat /\
    length (grid_indices flat) = (m * m * 2 * 3)%nat /\
    length (grid_positions ring) = (n * n * 3)%nat /\
    length (grid_normals ring) = (n * n * 3)%nat /\
    length (grid_indices ring) = (m * m * 2 * 3)%nat.
Proof.
  intros gR segments n m flat ring. subst flat ring.
  unfold WaveField.useMemo, GreatWaveSurface.useMemo. cbv zeta.
  rewrite WaveField_vertices_grid, GreatWaveSurface_vertices_grid.
  cbn [grid_positions grid_normals grid_indices].
  unfold Uint16Array_from. rewrite !length_map, triangles_length.
  rewrite !grid_of_length by reflexivity. fold n m. lia.
Qed.

Lemma INR_ratio (i : nat) (segments : Z) :
  (1 <= segments)%Z -> (Z.of_nat i <= segments)%Z ->
  0 <= INR i / IZR segments <= 1.
Proof.
  intros Hs Hi.
  assert (H1 : 1 <= IZR segments) by (apply IZR_le in Hs; exact Hs).
  assert (H2 : INR i <= IZR segments)
    by (rewrite INR_IZR_INZ; apply IZR_le, Hi).
  pose proof (pos_INR i) as H0.
  assert (Hinv : 0 < / IZR segments) by (apply Rinv_0_lt_compat; lra).
  assert (Hone : IZR segments * / IZR segments = 1) by (apply Rinv_r; lra).
  unfold Rdiv. split; nra.
Qed.

(** X2.  With at least one segment, vertex (i, j) of the WaveField
    grid sits at x = (i / segments - 0.5) * 100, y = 0 and
    z = (j / segments - 0.5) * 100, inside the square [-50, 50]^2,
    with the normal (0, 1, 0). *)
Theorem WaveField_grid_vertex :
  forall (segments : Z) (i j : nat),
    (1 <= segments)%Z ->
    (Z.of_nat i <= segments)%Z -> (Z.of_nat j <= segments)%Z ->
    let g := WaveField.useMemo segments in
    let n := Z.to_nat (segments + 1) in
    let x := (INR i / IZR segments - 0.5) * 100 in
    let z := (INR j / IZR segments - 0.5) * 100 in
    grid_positions g !! vertex_slot n i j 0 = Some (Fin x) /\
    grid_positions g !! vertex_slot n i j 1 = Some (Fin 0) /\
    grid_positions g !! vertex_slot n i j 2 = Some (Fin z) /\
    -50 <= x <= 50 /\ -50 <= z <= 50 /\
    grid_normals g !! vertex_slot n i j 0 = Some (Fin 0) /\
    grid_normals g !! vertex_slot n i j 1 = Some (Fin 1) /\
    grid_normals g !! vertex_slot n i j 2 = Some (Fin 0).
Proof.
  intros segments i j Hs Hi Hj g n x z. subst g.
  unfold WaveField.useMemo. cbv zeta. rewrite WaveField_vertices_grid.
  cbn [grid_positions grid_normals]. fold n.
  assert (Hin : (i < n)%nat) by lia. assert (Hjn : (j < n)%nat) by lia.
  rewrite !grid_of_lookup by (reflexivity || lia).
  unfold WaveField_vertex.
  assert (Hnz : IZR segments <> 0)
    by (apply IZR_le in Hs; intros H0; rewrite H0 in Hs; lra).
  rewrite !js_div_nonzero by exact Hnz. cbn.
  pose proof (INR_ratio i segments Hs Hi).
  pose proof (INR_ratio j segments Hs Hj).
  repeat split; try reflexivity; unfold x, z; lra.
Qed.

(** The middle vertex of the last column of a two-segment grid. *)
Lemma WaveField_grid_vertex_witness :
  grid_positions (WaveField.useMemo 2) !! vertex_slot 3 1 2 0
  = Some (Fin ((INR 1 / IZR 2 - 0.5) * 100)).
Proof.
  destruct (WaveField_grid_vertex 2 1 2) as [H _]; [lia|lia|lia|exact H].
Defined.

Lemma triangles_range (segments : Z) :
  Forall (fun t => (0 <= t < (segments + 1) * (segments + 1))%Z
                   /\ (0 < segments)%Z)
         (triangles segments).
Proof.
  rewrite triangles_cells.
  apply Forall_flat_map, Forall_forall. intros i Hi.
  apply Forall_flat_map, Forall_forall. intros j Hj.
  apply elem_of_seq in Hi, Hj. unfold cell_indices.
  repeat constructor; try lia; nia.
Qed.

Lemma Uint16Array_from_small (a : list Z) :
  Forall (fun t => (0 <= t < 2 ^ 16)%Z) a -> Uint16Array_from a = a.
Proof.
  intros Ha. unfold Uint16Array_from.
  induction Ha as [|t a Ht _ IH]; [reflexivity|].
  cbn [map]. rewrite IH, Z.mod_small by exact Ht. reflexivity.
Qed.

(** X3.  With at most 255 segments the index buffer of either surface
    holds the computed indices unchanged: cell (i, j) contributes the
    triangles (a, b, a + 1) and (b, b + 1, a + 1) with
    a = i * (segments + 1) + j and b = a + segments + 1, and every
    stored index refers to one of the (segments + 1)^2 vertices of the
    position buffer. *)
Theorem surface_indices_valid :
  forall (galaxyRadius : R) (segments : Z),
    (segments <= 255)%Z ->
    let flat := WaveField.useMemo segments in
    let ring := GreatWaveSurface.useMemo galaxyRadius segments in
    grid_indices ring = grid_indices flat /\
    (forall i j r : nat,
        (Z.of_nat i < segments)%Z -> (Z.of_nat j < segments)%Z ->
        (r < 6)%nat ->
        grid_indices flat !! ((i * Z.to_nat segments + j) * 6 + r)%nat
        = cell_indices segments i j !! r) /\
    (forall (k : nat) (t : Z),
        grid_indices flat !! k = Some t ->
        (0 <= t)%Z /\
        (Z.to_nat t * 3 + 2 < length (grid_positions flat))%nat /\
        (Z.to_nat t * 3 + 2 < length (grid_positions ring))%nat).
Proof.
  intros gR segments Hs flat ring.
  destruct (surface_positions_length gR segments) as [Hfp Hrp].
  fold flat in Hfp. fold ring in Hrp.
  assert (Hidx : grid_indices flat = triangles segments).
  { subst flat. unfold WaveField.useMemo. cbv zeta.
    destruct (WaveField.vertices segments) as [p q].
    cbn [grid_indices]. apply Uint16Array_from_small.
    eapply Forall_impl; [apply triangles_range|].
    intros t Ht. cbn beta in Ht. nia. }
  split; [|split].
  - subst flat ring. unfold WaveField.useMemo, GreatWaveSurface.useMemo.
    cbv zeta. destruct (WaveField.vertices _), (GreatWaveSurface.vertices _ _).
    reflexivity.
  - intros i j r Hi Hj Hr. rewrite Hidx. apply triangles_lookup; lia.
  - intros k t Hk. rewrite Hidx in Hk.
    pose proof (triangles_range segments) as Hall.
    rewrite Forall_forall in Hall.
    specialize (Hall t (list_elem_of_lookup_2 _ _ _ Hk)). cbn beta in Hall.
    rewrite Hfp, Hrp. split; [lia|]. split; nia.
Qed.

(** The first index of a two-segment surface. *)
Lemma surface_indices_valid_witness :
  grid_indices (WaveField.useMemo 2) !! 0%nat = cell_indices 2 0 0 !! 0%nat.
Proof.
  destruct (surface_indices_valid 1 2) as (_ & H & _); [lia|].
  apply (H 0%nat 0%nat 0%nat); lia.
Defined.

(** X4.  From 256 segments on the index buffer no longer holds what
    the loops computed: the index of the last vertex,
    (segments + 1)^2 - 1, pushed for the last cell, is 65536 or more
    and is stored modulo 65536. *)
Theorem surface_indices_wrap :
  forall (galaxyRadius : R) (segments : Z),
    (256 <= segments)%Z ->
    let m := Z.to_nat segments in
    let k := (((m - 1) * m + (m - 1)) * 6 + 4)%nat in
    let last := ((segments + 1) * (segments + 1) - 1)%Z in
    triangles segments !! k = Some last /\
    grid_indices (WaveField.useMemo segments) !! k
      = Some (last mod 2 ^ 16)%Z /\
    grid_indices (GreatWaveSurface.useMemo galaxyRadius segments) !! k
      = Some (last mod 2 ^ 16)%Z /\
    (last mod 2 ^ 16 <> last)%Z.
Proof.
  intros gR segments Hs m k last.
  assert (Hk : triangles segments !! k = Some last).
  { subst k m. rewrite triangles_lookup by lia.
    unfold cell_indices. cbn. f_equal. subst last. nia. }
  split; [exact Hk|].
  unfold WaveField.useMemo, GreatWaveSurface.useMemo. cbv zeta.
  destruct (WaveField.vertices _), (GreatWaveSurface.vertices _ _).
  cbn [grid_indices]. unfold Uint16Array_from.
  rewrite !list_lookup_fmap, Hk. cbn.
  split; [reflexivity|]. split; [reflexivity|].
  intros Heq.
  assert (Hlt : (last mod 2 ^ 16 < 2 ^ 16)%Z) by (apply Z.mod_pos_bound; lia).
  rewrite Heq in Hlt. subst last. nia.
Qed.

(** The last index of a surface of 256 segments. *)
Lemma surface_indices_wrap_witness :
  let m := Z.to_nat 256 in
  let k := (((m - 1) * m + (m - 1)) * 6 + 4)%nat in
  let last := ((256 + 1) * (256 + 1) - 1)%Z in
  grid_indices (WaveField.useMemo 256) !! k = Some (last mod 2 ^ 16)%Z.
Proof.
  intros m k last.
  destruct (surface_indices_wrap 1 256) as (_ & H & _); [lia|].
  exact H.
Defined.

(** X5.  With at least one segment and a galaxy radius of 0 or more,
    vertex (i, j) of the GreatWaveSurface grid lies in the plane y = 0
    at distance (0.6 + 0.7 * j / segments) * galaxyRadius from the
    axis, between 0.6 and 1.3 galaxy radii. *)
Theorem GreatWaveSurface_grid_vertex :
  forall (galaxyRadius : R) (segments : Z) (i j : nat),
    (1 <= segments)%Z -> 0 <= galaxyRadius ->
    (Z.of_nat i <= segments)%Z -> (Z.of_nat j <= segments)%Z ->
    let g := GreatWaveSurface.useMemo galaxyRadius segments in
    let n := Z.to_nat (segments + 1) in
    exists x z : R,
      grid_positions g !! vertex_slot n i j 0 = Some (Fin x) /\
      grid_positions g !! vertex_slot n i j 1 = Some (Fin 0) /\
      grid_positions g !! vertex_slot n i j 2 = Some (Fin z) /\
      sqrt (x * x + z * z)
        = (0.6 + INR j / IZR segments * 0.7) * galaxyRadius /\
      0.6 * galaxyRadius <= sqrt (x * x + z * z) <= 1.3 * galaxyRadius.
Proof.
  intros gR segments i j Hs HgR Hi Hj g n. subst g.
  unfold GreatWaveSurface.useMemo. cbv zeta.
  rewrite GreatWaveSurface_vertices_grid.
  cbn [grid_positions grid_normals]. fold n.
  assert (Hin : (i < n)%nat) by lia. assert (Hjn : (j < n)%nat) by lia.
  rewrite !grid_of_lookup by (reflexivity || lia).
  unfold GreatWaveSurface_vertex. cbv zeta.
  assert (Hnz : IZR segments <> 0)
    by (apply IZR_le in Hs; intros H0; rewrite H0 in Hs; lra).
  rewrite !js_div_nonzero by exact Hnz. cbn.
  pose proof (INR_ratio j segments Hs Hj) as Hq.
  set (radius := (0.6 + INR j / IZR segments * 0.7) * gR) in *.
  assert (Hr : 0.6 * gR <= radius <= 1.3 * gR) by (unfold radius; split; nra).
  do 2 eexists. split; [reflexivity|]. split; [reflexivity|].
  split; [reflexivity|].
  rewrite spiral_planar, sqrt_square by lra. split; [reflexivity|exact Hr].
Qed.

(** A vertex of the outer edge of a two-segment annulus. *)
Lemma GreatWaveSurface_grid_vertex_witness :
  exists x z : R,
    grid_positions (GreatWaveSurface.useMemo 25 2) !! vertex_slot 3 1 2 2
      = Some (Fin z) /\
    sqrt (x * x + z * z) <= 1.3 * 25.
Proof.
  destruct (GreatWaveSurface_grid_vertex 25 2 1 2)
    as (x & z & _ & _ & Hz & _ & _ & Hle); [lia|lra|lia|lia|].
  exists x, z. split; [exact Hz|exact Hle].
Defined.

(** ** The connection lines *)

Lemma line_step_length pp c idx (lp : buffer) :
  length (WaveParticles.line_step pp c idx lp) = length lp.
Proof.
  destruct c as [i j]. unfold WaveParticles.line_step. cbv zeta.
  rewrite !length_insert. reflexivity.
Qed.

Lemma line_step_other pp c idx (lp : buffer) s :
  (s / 6 <> idx)%nat -> WaveParticles.line_step pp c idx lp !!! s = lp !!! s.
Proof.
  intros Hs. destruct c as [i j]. unfold WaveParticles.line_step. cbv zeta.
  rewrite !list_lookup_total_insert_ne by lia. reflexivity.
Qed.

Lemma line_step_at pp i j idx (lp : buffer) k :
  (idx * 6 + 5 < length lp)%nat -> (k < 3)%nat ->
  WaveParticles.line_step pp (i, j) idx lp !!! (idx * 6 + k)%nat
    = pp !!! (i * 3 + k)%nat /\
  WaveParticles.line_step pp (i, j) idx lp !!! (idx * 6 + 3 + k)%nat
    = pp !!! (j * 3 + k)%nat.
Proof.
  intros Hlen Hk. unfold WaveParticles.line_step. cbv zeta.
  assert (Hk3 : k = 0%nat \/ k = 1%nat \/ k = 2%nat) by lia.
  rewrite !list_lookup_total_insert, !length_insert.
  destruct Hk3 as [-> | [-> | ->]];
    repeat (destruct (decide _); try (exfalso; lia));
    split; f_equal; lia.
Qed.

Lemma forEach_lines pp (connections : list (nat * nat)) (lp : buffer) n :
  (n <= length connections)%nat ->
  let lp' :=
    for_loop n (fun idx s => match connections !! idx with
                             | Some a => WaveParticles.line_step pp a idx s
                             | None => s
                             end) lp in
  length lp' = length lp /\
  (forall s, (n <= s / 6)%nat -> lp' !!! s = lp !!! s) /\
  (forall idx i j k,
      (idx < n)%nat -> connections !! idx = Some (i, j) ->
      (idx * 6 + 5 < length lp)%nat -> (k < 3)%nat ->
      lp' !!! (idx * 6 + k)%nat = pp !!! (i * 3 + k)%nat /\
      lp' !!! (idx * 6 + 3 + k)%nat = pp !!! (j * 3 + k)%nat).
Proof.
  induction n as [|n IH]; intros Hn; cbv zeta.
  - split; [reflexivity|]. split; [reflexivity|]. intros; lia.
  - rewrite for_loop_S.
    destruct IH as (IHlen & IHout & IHin); [lia|].
    set (prev := for_loop n _ lp) in *.
    destruct (connections !! n) as [[i0 j0]|] eqn:Hc;
      [|apply lookup_ge_None_1 in Hc; lia].
    split; [rewrite line_step_length; exact IHlen|]. split.
    + intros s Hs. rewrite line_step_other by lia. apply IHout. lia.
    + intros idx i j k Hidx Hlook Hlen Hk.
      destruct (decide (idx = n)) as [->|Hne].
      * rewrite Hc in Hlook. injection Hlook as -> ->.
        apply line_step_at; [rewrite IHlen; exact Hlen|exact Hk].
      * rewrite !line_step_other by lia. apply IHin; try assumption. lia.
Qed.

(** X6.  The line buffer is allocated with six numbers per connection,
    and a frame then copies into segment [idx] the current position of
    both particles of connection [idx]: numbers 0-2 are particle i's
    x, y, z and numbers 3-5 particle j's, whatever the particles'
    distance has become.  The buffer keeps its length. *)
Theorem connection_lines_follow_particles :
  forall connections : list (nat * nat),
    (forall linePositions,
        WaveParticles.lineGeometry connections = Ok linePositions ->
        length linePositions = (length connections * 6)%nat) /\
    (forall (ps : ParticleSet) (linePositions : buffer),
        length linePositions = (length connections * 6)%nat ->
        exists linePositions',
          WaveParticles.useFrame_lines connections (Some ps)
                                       (Some linePositions)
            = Some linePositions' /\
          length linePositions' = length linePositions /\
          forall (idx i j k : nat),
            connections !! idx = Some (i, j) -> (k < 3)%nat ->
            linePositions' !!! (idx * 6 + k)%nat
              = positions ps !!! (i * 3 + k)%nat /\
            linePositions' !!! (idx * 6 + 3 + k)%nat
              = positions ps !!! (j * 3 + k)%nat).
Proof.
  intros connections. split.
  - intros lp. unfold WaveParticles.lineGeometry, Float32Array_new.
    destruct (_ || _); [discriminate|]. intros [= <-].
    rewrite length_replicate. lia.
  - intros ps lp Hlen. eexists. split; [reflexivity|].
    unfold forEach.
    destruct (forEach_lines (positions ps) connections lp
                            (length connections))
      as (Hl & _ & Hin); [lia|].
    split; [exact Hl|].
    intros idx i j k Hlook Hk.
    pose proof (lookup_lt_Some _ _ _ Hlook) as Hidx.
    apply Hin; try assumption. lia.
Qed.

(** One connection between two particles. *)
Lemma connection_lines_follow_particles_witness :
  exists linePositions',
    WaveParticles.useFrame_lines [(0, 1)%nat]
      (Some {| positions := [Fin 1; Fin 2; Fin 3; Fin 4; Fin 5; Fin 6];
               colors := [] |})
      (Some (replicate 6 (Fin 0)))
    = Some linePositions' /\
    linePositions' !!! 4%nat = Fin 5.
Proof.
  destruct (connection_lines_follow_particles [(0, 1)%nat]) as [_ Hframe].
  destruct (Hframe
              {| positions := [Fin 1; Fin 2; Fin 3; Fin 4; Fin 5; Fin 6];
                 colors := [] |} (replicate 6 (Fin 0)))
    as (lp' & Hrun & _ & H); [reflexivity|].
  exists lp'. split; [exact Hrun|].
  destruct (H 0%nat 0%nat 1%nat 1%nat) as [_ H1]; [reflexivity|lia|].
  exact H1.
Defined.

(** ** The proximity graph as a prefix of the near pairs *)

Section ConnectionPrefix.

Variable particlePositions : list Vector3.
Variable connectionDistance : R.
Variable maxConnections : Z.
Hypothesis cap_positive : (1 <= maxConnections)%Z.

Lemma full_spec (l : list (nat * nat)) :
  WaveParticles.full maxConnections l = true
  <-> (Z.to_nat maxConnections <= length l)%nat.
Proof using cap_positive.
  unfold WaveParticles.full. rewrite Z.leb_le. lia.
Qed.

Lemma near_from_S (i j n : nat) :
  near_from particlePositions connectionDistance i j (S n) =
  if nearb particlePositions connectionDistance i j
  then (i, j) :: near_from particlePositions connectionDistance i (S j) n
  else near_from particlePositions connectionDistance i (S j) n.
Proof.
  unfold near_from. cbn [seq List.filter].
  destruct (nearb _ _ i j); reflexivity.
Qed.

Lemma inner_take n : forall i j l,
  (length l < Z.to_nat maxConnections)%nat ->
  WaveParticles.inner particlePositions connectionDistance maxConnections
                      i j n l
  = take (Z.to_nat maxConnections)
         (l ++ near_from particlePositions connectionDistance i j n).
Proof using cap_positive.
  induction n as [|n IH]; intros i j l Hl.
  - cbn. rewrite app_nil_r, take_ge by lia. reflexivity.
  - rewrite near_from_S. cbn [WaveParticles.inner]. fold (nearb
      particlePositions connectionDistance i j).
    destruct (nearb _ _ i j).
    + specialize (IH i (S j) (l ++ [(i, j)])).
      set (rest := near_from particlePositions connectionDistance i (S j) n)
        in *.
      rewrite (cons_middle (i, j) l rest), (app_assoc l [(i, j)] rest).
      destruct (WaveParticles.full _ _) eqn:Hfull.
      * apply full_spec in Hfull. rewrite length_app in Hfull. cbn in Hfull.
        symmetry. apply take_app_length'.
        rewrite length_app. cbn. lia.
      * apply IH. destruct (decide (length (l ++ [(i, j)])
                                    < Z.to_nat maxConnections)%nat) as [H|H];
          [exact H|].
        assert (Ht : WaveParticles.full maxConnections (l ++ [(i, j)]) = true)
          by (apply full_spec; lia).
        congruence.
    + apply IH, Hl.
Qed.

Lemma outer_take n : forall i l,
  (length l < Z.to_nat maxConnections)%nat ->
  WaveParticles.outer particlePositions connectionDistance maxConnections
                      i n l
  = take (Z.to_nat maxConnections)
         (l ++ flat_map
                 (fun i => near_from particlePositions connectionDistance i
                                     (S i) (length particlePositions - S i))
                 (seq i n)).
Proof using cap_positive.
  induction n as [|n IH]; intros i l Hl.
  - cbn. rewrite app_nil_r, take_ge by lia. reflexivity.
  - cbn [WaveParticles.outer seq flat_map]. unfold WaveParticles.count.
    rewrite inner_take by exact Hl. rewrite app_assoc.
    set (X := l ++ near_from _ _ i (S i) _).
    destruct (WaveParticles.full _ _) eqn:Hfull.
    + apply full_spec in Hfull. rewrite length_take in Hfull.
      rewrite take_app_le by lia. reflexivity.
    + assert (HX : (length X < Z.to_nat maxConnections)%nat).
      { destruct (decide (length X < Z.to_nat maxConnections)%nat) as [H|H];
          [exact H|].
        assert (Ht : WaveParticles.full maxConnections
                       (take (Z.to_nat maxConnections) X) = true)
          by (apply full_spec; rewrite length_take; lia).
        congruence. }
      rewrite (take_ge X) by lia. apply IH, HX.
Qed.

End ConnectionPrefix.

Lemma near_pairs_elem (particlePositions : list Vector3)
      (connectionDistance : R) (i j : nat) :
  (i, j) ∈ near_pairs particlePositions connectionDistance
  <-> (i < j < length particlePositions)%nat
      /\ near particlePositions connectionDistance i j.
Proof.
  unfold near_pairs, near_from. rewrite list_elem_of_In, in_flat_map.
  split.
  - intros (i' & Hi' & Hin). apply in_map_iff in Hin.
    destruct Hin as (j' & [= <- <-] & Hj'). apply filter_In in Hj'.
    destruct Hj' as [Hseq Hnear]. apply in_seq in Hi', Hseq.
    split; [lia|]. apply ltb_near, Hnear.
  - intros [Hij Hnear]. exists i. split; [apply in_seq; lia|].
    apply in_map_iff. exists j. split; [reflexivity|].
    apply filter_In. split; [apply in_seq; lia|]. apply ltb_near, Hnear.
Qed.

(** X7.  With maxConnections >= 1 the graph is exactly the first
    maxConnections near pairs in scanning order, where the near pairs
    are the (i, j) with i < j < count whose distance is below
    connectionDistance; so when there are no more than maxConnections
    near pairs the graph holds every one of them. *)
Theorem connections_first_near_pairs :
  forall (particlePositions : list Vector3) (connectionDistance : R)
         (maxConnections : Z),
    (1 <= maxConnections)%Z ->
    let g := WaveParticles.connections particlePositions connectionDistance
                                       maxConnections in
    let all := near_pairs particlePositions connectionDistance in
    g = take (Z.to_nat maxConnections) all /\
    ((Z.of_nat (length all) <= maxConnections)%Z -> g = all) /\
    (forall i j : nat,
        (i, j) ∈ all <->
        (i < j < length particlePositions)%nat /\
        near particlePositions connectionDistance i j).
Proof.
  intros pp cd maxC Hcap g all.
  assert (Hg : g = take (Z.to_nat maxC) all).
  { subst g all. unfold WaveParticles.connections, WaveParticles.count.
    rewrite outer_take by (cbn; lia). reflexivity. }
  split; [exact Hg|]. split.
  - intros Hlen. rewrite Hg. apply take_ge. lia.
  - intros i j. apply near_pairs_elem.
Qed.

(** Three particles in a row, one unit apart, with room for two pairs. *)
Lemma connections_first_near_pairs_witness :
  let pp := [{| vx := 0; vy := 0; vz := 0 |}; {| vx := 1; vy := 0; vz := 0 |};
             {| vx := 2; vy := 0; vz := 0 |}] in
  WaveParticles.connections pp 8 2 = take 2 (near_pairs pp 8).
Proof.
  intros pp.
  destruct (connections_first_near_pairs pp 8 2) as [H _]; [lia|exact H].
Defined.

Lemma distanceTo_nonneg (a b : Vector3) : 0 <= distanceTo a b.
Proof. unfold distanceTo. cbv zeta. apply sqrt_pos. Qed.

Lemma inner_none pp cd maxC n : forall i j l,
  (forall j', nearb pp cd i j' = false) ->
  WaveParticles.inner pp cd maxC i j n l = l.
Proof.
  induction n as [|n IH]; intros i j l Hfar; [reflexivity|].
  cbn [WaveParticles.inner]. fold (nearb pp cd i j). rewrite Hfar.
  apply IH, Hfar.
Qed.

Lemma outer_none pp cd maxC n : forall i l,
  (forall i' j', nearb pp cd i' j' = false) ->
  WaveParticles.outer pp cd maxC i n l = l.
Proof.
  induction n as [|n IH]; intros i l Hfar; [reflexivity|].
  cbn [WaveParticles.outer]. rewrite inner_none by apply Hfar.
  destruct (WaveParticles.full _ _); [reflexivity|]. apply IH, Hfar.
Qed.

(** X8.  With connectionDistance <= 0 the graph is empty, for every
    cap and every set of particles: no distance is below it. *)
Theorem connections_nonpositive_distance :
  forall (particlePositions : list Vector3) (connectionDistance : R)
         (maxConnections : Z),
    connectionDistance <= 0 ->
    WaveParticles.connections particlePositions connectionDistance
                              maxConnections = [].
Proof.
  intros pp cd maxC Hcd. unfold WaveParticles.connections.
  apply outer_none. intros i j. unfold nearb. apply ltb_false.
  pose proof (distanceTo_nonneg (pp !!! i) (pp !!! j)). lra.
Qed.

(** Two particles at the same place and a distance of 0. *)
Lemma connections_nonpositive_distance_witness :
  WaveParticles.connections
    [{| vx := 0; vy := 0; vz := 0 |}; {| vx := 0; vy := 0; vz := 0 |}] 0 500
  = [].
Proof. apply connections_nonpositive_distance. lra. Defined.

(** ** The generators *)

Lemma write_position_y i x y z (p : buffer) :
  (i * 3 + 2 < length p)%nat ->
  write_position i x y z p !!! (i * 3 + 1)%nat = y.
Proof.
  intros Hi. unfold write_position.
  rewrite list_lookup_total_insert_ne by lia.
  apply list_lookup_total_insert_eq. rewrite !length_insert. lia.
Qed.

Lemma write_color_length i color (c : buffer) :
  length (write_color i color c) = length c.
Proof. unfold write_color. rewrite !length_insert. reflexivity. Qed.

Lemma Float32Array_new_ok (n : Z) (b : buffer) :
  Float32Array_new n = Ok b ->
  (0 <= n)%Z /\ b = replicate (Z.to_nat n) (Fin 0).
Proof.
  unfold Float32Array_new.
  destruct (Z.ltb_spec n 0); cbn [orb]; [discriminate|].
  destruct (_ <? _)%Z; [discriminate|]. intros [= <-]. split; [lia|reflexivity].
Qed.

(** The loop of the Stars: draw [c0 + i] lands in slot [i]. *)
Lemma Stars_loop (rng : nat -> R) (n : nat) (p0 : buffer) (c0 : nat) :
  let r := for_rand n
             (fun i positions =>
                let! u := Math_random in
                ret (<[i := Fin ((u - 0.5) * 200)]> positions))
             p0 rng c0 in
  r.2 = (c0 + n)%nat /\
  length r.1 = length p0 /\
  forall i, (i < n)%nat -> (i < length p0)%nat ->
            r.1 !!! i = Fin ((rng (c0 + i)%nat - 0.5) * 200).
Proof.
  induction n as [|n (IHc & IHlen & IH)]; cbv zeta.
  - cbn. split; [lia|]. split; [reflexivity|]. intros; lia.
  - unfold for_rand in *. rewrite for_loop_S.
    destruct (for_loop n _ _) as [p c]. cbn [fst snd] in *.
    unfold rbind, Math_random, ret. cbn [fst snd]. subst c.
    split; [lia|]. split; [rewrite length_insert; exact IHlen|].
    intros i Hi Hlen. rewrite list_lookup_total_insert.
    destruct (decide _) as [[-> _]|Hne]; [reflexivity|].
    apply IH; lia.
Qed.

(** X9.  The star field: a negative count raises a RangeError; else
    the buffer holds 3 * count coordinates, one random draw each, and
    with draws in [0, 1) every coordinate is a finite number in
    [-100, 100). *)
Theorem Stars_in_cube :
  forall (rng : nat -> R) (count : Z) (c0 : nat),
    ((count < 0)%Z -> Stars.useMemo count rng c0 = (RangeError, c0)) /\
    (forall (positions : buffer) (c1 : nat),
        Stars.useMemo count rng c0 = (Ok positions, c1) ->
        length positions = (Z.to_nat count * 3)%nat /\
        c1 = (c0 + Z.to_nat count * 3)%nat /\
        (unit_source rng ->
         forall k, (k < length positions)%nat ->
                   exists v, positions !! k = Some (Fin v)
                             /\ -100 <= v < 100)).
Proof.
  intros rng count c0. unfold Stars.useMemo. split.
  - intros Hneg. rewrite Float32Array_new_negative by lia. reflexivity.
  - intros p c1. destruct (Float32Array_new _) as [p0|] eqn:Hnew;
      [|discriminate].
    apply Float32Array_new_ok in Hnew. destruct Hnew as [Hpos ->].
    unfold rbind, ret.
    pose proof (Stars_loop rng (Z.to_nat (count * 3))
                  (replicate (Z.to_nat (count * 3)) (Fin 0)) c0) as Hloop.
    cbv zeta in Hloop. destruct (for_rand _ _ _ rng c0) as [p' c'].
    cbn [fst snd] in Hloop. destruct Hloop as (Hc & Hlen & Hslots).
    rewrite length_replicate in Hlen, Hslots.
    intros [= <- <-]. split; [lia|]. split; [lia|].
    intros Hrng k Hk. exists ((rng (c0 + k)%nat - 0.5) * 200).
    split.
    + apply list_lookup_alt. split; [exact Hk|]. apply Hslots; lia.
    + pose proof (Hrng (c0 + k)%nat). lra.
Qed.

(** One star with every draw 1/2. *)
Lemma Stars_in_cube_witness :
  exists (positions : buffer) (v : R),
    positions !! 0%nat = Some (Fin v) /\ -100 <= v < 100.
Proof.
  destruct (Stars_in_cube half_source 1 0) as [_ H].
  assert (Hrun : exists p c1, Stars.useMemo 1 half_source 0%nat = (Ok p, c1)).
  { unfold Stars.useMemo.
    change (Float32Array_new (1 * 3)) with (Ok (replicate 3 (Fin 0))).
    unfold rbind, ret. destruct (for_rand _ _ _ half_source 0%nat) as [p c1].
    exists p, c1. reflexivity. }
  destruct Hrun as (p & c1 & Hrun).
  destruct (H p c1 Hrun) as (Hlen & _ & Hin).
  destruct (Hin half_source_unit 0%nat) as (v & Hv & Hb); [rewrite Hlen; lia|].
  exists p, v. split; [exact Hv|exact Hb].
Defined.

(** A generation loop whose iteration [i] writes the position of
    particle [i], computed from the draws alone: afterwards the slots
    of every particle hold what was computed from some draw on. *)
Lemma for_rand_slots {S : Type} (proj : S -> buffer)
      (body : nat -> S -> Rand S) (triple : nat -> num * num * num)
      (rng : nat -> R) :
  (forall i s c,
      proj (body i s rng c).1 =
      let '(x, y, z) := triple c in write_position i x y z (proj s)) ->
  forall k s0 c0,
    let s := (for_rand k body s0 rng c0).1 in
    length (proj s) = length (proj s0) /\
    forall i, (i < k)%nat -> (i * 3 + 2 < length (proj s0))%nat ->
      exists n x y z,
        triple n = (x, y, z) /\
        proj s !!! (i * 3)%nat = x /\
        proj s !!! (i * 3 + 1)%nat = y /\
        proj s !!! (i * 3 + 2)%nat = z.
Proof.
  intros Hbody k s0 c0.
  induction k as [|k [IHlen IH]]; cbv zeta.
  - split; [reflexivity|]. intros i Hi. lia.
  - unfold for_rand in *. rewrite for_loop_S.
    set (st := for_loop k _ _) in *. cbv zeta in IHlen, IH.
    rewrite Hbody.
    destruct (triple st.2) as [[x y] z] eqn:Htriple.
    split; [rewrite write_position_length; exact IHlen|].
    intros i Hi Hlen.
    destruct (decide (i = k)) as [->|Hne].
    + exists st.2, x, y, z. split; [exact Htriple|].
      split; [apply write_position_x; lia|].
      split; [apply write_position_y|apply write_position_z]; lia.
    + destruct (IH i) as (n & x' & y' & z' & Hn & Hx & Hy & Hz); [lia|lia|].
      exists n, x', y', z'. split; [exact Hn|].
      rewrite !write_position_other by lia. auto.
Qed.

Lemma useMemo_loop_lengths (count : Z) (p : buffer) :
  Float32Array_new (count * 3) = Ok p ->
  (0 <= count)%Z /\ length p = (Z.to_nat count * 3)%nat.
Proof.
  intros Hnew. apply Float32Array_new_ok in Hnew. destruct Hnew as [Hpos ->].
  rewrite length_replicate. lia.
Qed.

(** Where the generation loop of the Great Wave leaves each particle. *)
Lemma GreatWave_cloud_slots :
  forall (three : Three) (rng : nat -> R) (galaxyRadius : R)
         (particleCount : Z) (c0 c1 : nat) (ps : ParticleSet),
    unit_source rng -> 0 <= galaxyRadius ->
    GreatWave.useMemo three galaxyRadius particleCount rng c0 = (Ok ps, c1) ->
    length (positions ps) = (Z.to_nat particleCount * 3)%nat /\
    forall i : nat,
      (Z.of_nat i < particleCount)%Z ->
      exists x z : R,
        positions ps !! (i * 3)%nat = Some (Fin x) /\
        positions ps !! (i * 3 + 1)%nat = Some (Fin 0) /\
        positions ps !! (i * 3 + 2)%nat = Some (Fin z) /\
        0.6 * galaxyRadius <= sqrt (x * x + z * z) <= 1.3 * galaxyRadius.
Proof.
  intros three rng gR count c0 c1 ps Hrng HgR.
  unfold GreatWave.useMemo.
  destruct (Float32Array_new _) as [p0|] eqn:Hnew; [|discriminate].
  apply useMemo_loop_lengths in Hnew. destruct Hnew as [Hpos Hlen0].
  unfold rbind, ret.
  pose proof (for_rand_slots positions (GreatWave.body three gR)
    (fun c => (Fin (cos (rng c * PI * 2)
                    * ((0.6 + rng (S c) * 0.7) * gR)),
               Fin 0,
               Fin (sin (rng c * PI * 2)
                    * ((0.6 + rng (S c) * 0.7) * gR)))) rng
    (fun i s c => eq_refl) (Z.to_nat count)
    {| positions := p0; colors := p0 |} c0) as Hloop.
  cbv zeta in Hloop. destruct (for_rand _ _ _ rng c0) as [ps' c'].
  cbn [fst positions] in Hloop. destruct Hloop as [Hlen Hslots].
  intros [= <- <-]. split; [lia|].
  intros i Hi.
  destruct (Hslots i) as (n & x & y & z & [= <- <- <-] & Hx & Hy & Hz);
    [lia|lia|].
  do 2 eexists.
  split; [apply list_lookup_alt; split; [lia|exact Hx]|].
  split; [apply list_lookup_alt; split; [lia|exact Hy]|].
  split; [apply list_lookup_alt; split; [lia|exact Hz]|].
  pose proof (Hrng (S n)) as Hu.
  rewrite spiral_planar, sqrt_square by nra. split; nra.
Qed.

(** X10.  With draws in [0, 1) and a galaxy radius of 0 or more, the
    Great Wave cloud has 3 * count position numbers, and every
    particle starts in the plane y = 0 at a distance from the axis
    between 0.6 and 1.3 galaxy radii. *)
Theorem GreatWave_cloud_annulus :
  forall (three : Three) (rng : nat -> R) (galaxyRadius : R)
         (particleCount : Z) (c0 c1 : nat) (ps : ParticleSet),
    unit_source rng -> 0 <= galaxyRadius ->
    GreatWave.useMemo three galaxyRadius particleCount rng c0 = (Ok ps, c1) ->
    length (positions ps) = (Z.to_nat particleCount * 3)%nat /\
    forall i : nat,
      (Z.of_nat i < particleCount)%Z ->
      exists x z : R,
        positions ps !! (i * 3)%nat = Some (Fin x) /\
        positions ps !! (i * 3 + 1)%nat = Some (Fin 0) /\
        positions ps !! (i * 3 + 2)%nat = Some (Fin z) /\
        0.6 * galaxyRadius <= sqrt (x * x + z * z) <= 1.3 * galaxyRadius.
Proof.
  intros three rng gR count c0 c1 ps Hrng HgR Hrun.
  destruct (GreatWave_cloud_slots three rng gR count c0 c1 ps Hrng HgR Hrun)
    as [Hlen Hslots].
  split; [exact Hlen|].
  intros i Hi. destruct (Hslots i Hi) as (x & z & Hx & Hy & Hz & Hb).
  exists x, z. auto.
Qed.

Lemma GreatWave_useMemo_runs three galaxyRadius rng c0 :
  exists ps c1,
    GreatWave.useMemo three galaxyRadius 1 rng c0 = (Ok ps, c1).
Proof.
  unfold GreatWave.useMemo.
  change (Float32Array_new (1 * 3)) with (Ok (replicate 3 (Fin 0))).
  unfold rbind, ret. destruct (for_rand _ _ _ rng c0) as [ps c1].
  exists ps, c1. reflexivity.
Qed.

(** One particle with the default radius and every draw 1/2. *)
Lemma GreatWave_cloud_annulus_witness :
  exists (ps : ParticleSet) (x z : R),
    positions ps !! 0%nat = Some (Fin x) /\
    positions ps !! 2%nat = Some (Fin z) /\
    0.6 * 25 <= sqrt (x * x + z * z) <= 1.3 * 25.
Proof.
  destruct (GreatWave_useMemo_runs grey_three 25 half_source 0)
    as (ps & c1 & Hrun).
  destruct (GreatWave_cloud_annulus grey_three half_source 25 1 0%nat c1 ps
              half_source_unit) as [_ H]; [lra|exact Hrun|].
  destruct (H 0%nat) as (x & z & Hx & _ & Hz & Hb); [lia|].
  exists ps, x, z. auto.
Defined.

(** What a sweep leaves in the three slots of particle [i]. *)
Lemma sweep_particle (f : num -> num -> num) (n : nat) (p : buffer) (i : nat) :
  (i < n)%nat -> (i * 3 + 2 < length p)%nat ->
  sweep f n p !! (i * 3)%nat = p !! (i * 3)%nat /\
  sweep f n p !! (i * 3 + 1)%nat
    = Some (f (p !!! (i * 3)%nat) (p !!! (i * 3 + 2)%nat)) /\
  sweep f n p !! (i * 3 + 2)%nat = p !! (i * 3 + 2)%nat.
Proof.
  intros Hi Hlen.
  assert (Hl : forall j, (j < length p)%nat ->
             sweep f n p !! j = Some (sweep f n p !!! j)).
  { intros j Hj. apply list_lookup_lookup_total_lt.
    rewrite sweep_length. exact Hj. }
  rewrite !Hl by lia.
  rewrite !(list_lookup_lookup_total_lt p) by lia.
  rewrite !sweep_lookup.
  repeat (destruct (decide _); try (exfalso; lia)).
  split; [reflexivity|]. split; [|reflexivity].
  do 2 f_equal; f_equal; lia.
Qed.

Lemma GreatWave_displacement_finite x z time amplitude waveLength waveSpeed :
  waveLength <> 0 ->
  exists d,
    GreatWave.displacement x z time amplitude waveLength waveSpeed = Fin d /\
    Rabs d <= 1.3 * Rabs amplitude.
Proof.
  intros Hwl. unfold GreatWave.displacement. cbv zeta.
  rewrite js_div_nonzero by exact Hwl. cbn [bind].
  eexists. split; [reflexivity|].
  set (s1 := sin _). set (s2 := sin _).
  assert (H1 : -1 <= s1 <= 1) by apply SIN_bound.
  assert (H2 : -1 <= s2 <= 1) by apply SIN_bound.
  unfold Rabs. destruct (Rcase_abs _), (Rcase_abs amplitude); nra.
Qed.

(** X11.  A frame of the Great Wave on the cloud its generator made
    (draws in [0, 1), galaxy radius 0 or more, waveLength other than
    0, the wave shown): every particle keeps its x and z, so stays
    between 0.6 and 1.3 galaxy radii from the axis, and is lifted to a
    finite height of at most 1.3 * |waveAmplitude|. *)
Theorem GreatWave_frame_on_cloud :
  forall (three : Three) (rng : nat -> R) (galaxyRadius : R)
         (particleCount : Z) (c0 c1 : nat) (ps : ParticleSet)
         (elapsedTime waveAmplitude waveLength waveSpeed : R),
    unit_source rng -> 0 <= galaxyRadius -> waveLength <> 0 ->
    GreatWave.useMemo three galaxyRadius particleCount rng c0 = (Ok ps, c1) ->
    exists ps',
      GreatWave.useFrame particleCount true elapsedTime waveAmplitude
                         waveLength waveSpeed (Some ps) = Some ps' /\
      forall i : nat,
        (Z.of_nat i < particleCount)%Z ->
        exists x y z : R,
          positions ps !! (i * 3)%nat = Some (Fin x) /\
          positions ps !! (i * 3 + 2)%nat = Some (Fin z) /\
          positions ps' !! (i * 3)%nat = Some (Fin x) /\
          positions ps' !! (i * 3 + 1)%nat = Some (Fin y) /\
          positions ps' !! (i * 3 + 2)%nat = Some (Fin z) /\
          0.6 * galaxyRadius <= sqrt (x * x + z * z) <= 1.3 * galaxyRadius /\
          Rabs y <= 1.3 * Rabs waveAmplitude.
Proof.
  intros three rng gR count c0 c1 ps t A wl ws Hrng HgR Hwl Hrun.
  destruct (GreatWave_cloud_slots three rng gR count c0 c1 ps Hrng HgR Hrun)
    as [Hlen Hcloud].
  eexists. split; [reflexivity|]. cbn [positions].
  intros i Hi. destruct (Hcloud i Hi) as (x & z & Hx & _ & Hz & Hb).
  rewrite GreatWave_update_sweep.
  destruct (sweep_particle (GreatWave_y t A wl ws) (Z.to_nat count)
              (positions ps) i) as (Hx' & Hy' & Hz'); [lia|lia|].
  destruct (GreatWave_displacement_finite x z t A wl ws Hwl) as (d & Hd & Hbd).
  exists x, d, z. rewrite Hx', Hy', Hz'.
  rewrite (list_lookup_total_correct _ _ _ Hx).
  rewrite (list_lookup_total_correct _ _ _ Hz).
  unfold GreatWave_y. cbn [bind]. rewrite Hd. auto 10.
Qed.

(** One particle, one frame, the default parameters. *)
Lemma GreatWave_frame_on_cloud_witness :
  exists (ps' : ParticleSet) (y : R),
    positions ps' !! 1%nat = Some (Fin y) /\
    Rabs y <= 1.3 * Rabs (65 / 100).
Proof.
  destruct (GreatWave_useMemo_runs grey_three 25 half_source 0)
    as (ps & c1 & Hrun).
  destruct (GreatWave_frame_on_cloud grey_three half_source 25 1 0%nat c1 ps
              1 (65 / 100) 30 (5 / 100) half_source_unit)
    as (ps' & _ & H); [lra|lra|exact Hrun|].
  destruct (H 0%nat) as (x & y & z & _ & _ & _ & Hy & _ & _ & Hb); [lia|].
  exists ps', y. auto.
Defined.

(** The generation loop of the cloud: buffer and vectors agree, and
    every vector lies in the box. *)
Lemma WaveParticles_loop (three : Three) (particleColor : string)
      (rng : nat -> R) (k : nat) (ps0 : ParticleSet) (c0 : nat) :
  unit_source rng ->
  let st := (for_rand k (WaveParticles.body three particleColor) (ps0, [])
                      rng c0).1 in
  length (positions st.1) = length (positions ps0) /\
  length (colors st.1) = length (colors ps0) /\
  length st.2 = k /\
  forall i, (i < k)%nat -> (i * 3 + 2 < length (positions ps0))%nat ->
    let v := st.2 !!! i in
    positions st.1 !!! (i * 3)%nat = Fin (vx v) /\
    positions st.1 !!! (i * 3 + 1)%nat = Fin (vy v) /\
    positions st.1 !!! (i * 3 + 2)%nat = Fin (vz v) /\
    -50 <= vx v < 50 /\ -15 <= vy v < 15 /\ -50 <= vz v < 50.
Proof.
  intros Hrng.
  induction k as [|k (IHp & IHc & IHv & IH)]; cbv zeta.
  - cbn. split; [reflexivity|]. split; [reflexivity|].
    split; [reflexivity|]. intros; lia.
  - unfold for_rand in *. rewrite for_loop_S.
    destruct (for_loop k _ _) as [[ps vs] c]. cbn [fst snd] in *.
    unfold WaveParticles.body, rbind, Math_random, ret. cbn [fst snd positions
      colors].
    split; [rewrite write_position_length; exact IHp|].
    split; [rewrite write_color_length; exact IHc|].
    split; [rewrite length_app; cbn; lia|].
    intros i Hi Hlen.
    destruct (decide (i = k)) as [->|Hne].
    + rewrite lookup_total_app_r by lia.
      replace (k - length vs)%nat with 0%nat by lia. cbn [lookup_total
        list_lookup_total vx vy vz].
      rewrite write_position_x, write_position_y, write_position_z by lia.
      pose proof (Hrng c). pose proof (Hrng (S c)). pose proof (Hrng (S (S c))).
      repeat split; try reflexivity; lra.
    + rewrite lookup_total_app_l by lia.
      rewrite !write_position_other by lia. apply IH; lia.
Qed.

(** X12.  With draws in [0, 1), the wave-particle cloud has
    3 * count position and colour numbers; every particle is generated
    at a finite position inside the box [-50, 50) x [-15, 15) x
    [-50, 50); and every connection (i, j) of its graph joins two
    particles of the buffer, i < j < count, whose generated positions
    are less than connectionDistance apart. *)
Theorem WaveParticles_cloud_box :
  forall (three : Three) (particleColor : string) (rng : nat -> R)
         (count : Z) (connectionDistance : R) (maxConnections : Z)
         (c0 c1 : nat) (ps : ParticleSet) (g : list (nat * nat)),
    unit_source rng ->
    WaveParticles.useMemo three particleColor count connectionDistance
                          maxConnections rng c0 = (Ok (ps, g), c1) ->
    length (positions ps) = (Z.to_nat count * 3)%nat /\
    length (colors ps) = (Z.to_nat count * 3)%nat /\
    (forall i : nat,
        (Z.of_nat i < count)%Z ->
        exists x y z : R,
          positions ps !! (i * 3)%nat = Some (Fin x) /\
          positions ps !! (i * 3 + 1)%nat = Some (Fin y) /\
          positions ps !! (i * 3 + 2)%nat = Some (Fin z) /\
          -50 <= x < 50 /\ -15 <= y < 15 /\ -50 <= z < 50) /\
    (forall i j : nat,
        (i, j) ∈ g ->
        (i < j)%nat /\ (Z.of_nat j < count)%Z /\
        exists xi yi zi xj yj zj : R,
          positions ps !! (i * 3)%nat = Some (Fin xi) /\
          positions ps !! (i * 3 + 1)%nat = Some (Fin yi) /\
          positions ps !! (i * 3 + 2)%nat = Some (Fin zi) /\
          positions ps !! (j * 3)%nat = Some (Fin xj) /\
          positions ps !! (j * 3 + 1)%nat = Some (Fin yj) /\
          positions ps !! (j * 3 + 2)%nat = Some (Fin zj) /\
          sqrt ((xi - xj) * (xi - xj) + (yi - yj) * (yi - yj)
                + (zi - zj) * (zi - zj)) < connectionDistance).
Proof.
  intros three pc rng count cd maxC c0 c1 ps g Hrng.
  unfold WaveParticles.useMemo.
  destruct (Float32Array_new _) as [p0|] eqn:Hnew; [|discriminate].
  apply useMemo_loop_lengths in Hnew. destruct Hnew as [Hpos Hlen0].
  unfold rbind, ret.
  pose proof (WaveParticles_loop three pc rng (Z.to_nat count)
                {| positions := p0; colors := p0 |} c0 Hrng) as Hloop.
  cbv zeta in Hloop.
  destruct (for_rand _ _ _ rng c0) as [[ps' vs] c'].
  cbn [fst snd positions colors] in Hloop.
  destruct Hloop as (Hp & Hc & Hv & Hslots).
  intros [= <- <- <-].
  assert (Hpart : forall i, (i < Z.to_nat count)%nat ->
    positions ps' !! (i * 3)%nat = Some (Fin (vx (vs !!! i))) /\
    positions ps' !! (i * 3 + 1)%nat = Some (Fin (vy (vs !!! i))) /\
    positions ps' !! (i * 3 + 2)%nat = Some (Fin (vz (vs !!! i))) /\
    -50 <= vx (vs !!! i) < 50 /\ -15 <= vy (vs !!! i) < 15 /\
    -50 <= vz (vs !!! i) < 50).
  { intros i Hi.
    destruct (Hslots i) as (Hx & Hy & Hz & Hbx & Hby & Hbz); [lia|lia|].
    split; [apply list_lookup_alt; split; [lia|exact Hx]|].
    split; [apply list_lookup_alt; split; [lia|exact Hy]|].
    split; [apply list_lookup_alt; split; [lia|exact Hz]|]. auto. }
  split; [lia|]. split; [lia|]. split.
  - intros i Hi. destruct (Hpart i) as (Hx & Hy & Hz & Hb); [lia|].
    do 3 eexists. eauto.
  - intros i j Hij.
    assert (Hsc : scanned vs cd (WaveParticles.count vs) 0
                          (WaveParticles.connections vs cd maxC)).
    { apply outer_scanned; [lia|]. repeat split; constructor. }
    destruct Hsc as (_ & Hst & _). rewrite Forall_forall in Hst.
    destruct (Hst _ Hij) as [Hlt Hnear]. cbn [fst snd] in Hlt, Hnear.
    unfold WaveParticles.count in Hlt.
    split; [lia|]. split; [lia|].
    destruct (Hpart i) as (Hxi & Hyi & Hzi & _); [lia|].
    destruct (Hpart j) as (Hxj & Hyj & Hzj & _); [lia|].
    do 6 eexists. repeat (split; [eassumption|]). exact Hnear.
Qed.

Lemma WaveParticles_useMemo_runs three particleColor connectionDistance
      maxConnections rng c0 :
  exists ps g c1,
    WaveParticles.useMemo three particleColor 2 connectionDistance
                          maxConnections rng c0 = (Ok (ps, g), c1).
Proof.
  unfold WaveParticles.useMemo.
  change (Float32Array_new (2 * 3)) with (Ok (replicate 6 (Fin 0))).
  unfold rbind, ret. destruct (for_rand _ _ _ rng c0) as [[ps vs] c1].
  do 3 eexists. reflexivity.
Qed.

(** Two particles with every draw 1/2. *)
Lemma WaveParticles_cloud_box_witness :
  exists (ps : ParticleSet) (x : R),
    positions ps !! 3%nat = Some (Fin x) /\ -50 <= x < 50.
Proof.
  destruct (WaveParticles_useMemo_runs grey_three EmptyString 8 500
              half_source 0) as (ps & g & c1 & Hrun).
  destruct (WaveParticles_cloud_box grey_three EmptyString half_source 2 8 500
              0%nat c1 ps g half_source_unit Hrun) as (_ & _ & H & _).
  destruct (H 1%nat) as (x & y & z & Hx & _ & _ & Hb & _); [lia|].
  exists ps, x. auto.
Defined.

(** ** Frames on what the generators made *)

Lemma WaveParticles_height_abs (x z time waveIntensity : R) :
  Rabs (WaveParticles.height x z time waveIntensity)
  <= 2 * Rabs waveIntensity.
Proof.
  unfold WaveParticles.height. cbv zeta.
  set (s1 := sin _). set (s2 := sin _). set (s3 := sin _).
  assert (H1 : -1 <= s1 <= 1) by apply SIN_bound.
  assert (H2 : -1 <= s2 <= 1) by apply SIN_bound.
  assert (H3 : -1 <= s3 <= 1) by apply SIN_bound.
  unfold Rabs. destruct (Rcase_abs _), (Rcase_abs waveIntensity); nra.
Qed.

Lemma WaveField_height_abs (x z time waveIntensity : R) :
  Rabs (WaveField.height x z time waveIntensity)
  <= 8.5 * Rabs waveIntensity.
Proof.
  unfold WaveField.height. cbv zeta.
  set (s1 := sin _). set (s2 := sin _). set (s3 := sin _). set (s4 := sin _).
  assert (H1 : -1 <= s1 <= 1) by apply SIN_bound.
  assert (H2 : -1 <= s2 <= 1) by apply SIN_bound.
  assert (H3 : -1 <= s3 <= 1) by apply SIN_bound.
  assert (H4 : -1 <= s4 <= 1) by apply SIN_bound.
  unfold Rabs. destruct (Rcase_abs _), (Rcase_abs waveIntensity); nra.
Qed.

(** Where the generation loop of the cloud leaves each particle. *)
Lemma WaveParticles_cloud_slots :
  forall (three : Three) (particleColor : string) (rng : nat -> R)
         (count : Z) (connectionDistance : R) (maxConnections : Z)
         (c0 c1 : nat) (ps : ParticleSet) (g : list (nat * nat)),
    unit_source rng ->
    WaveParticles.useMemo three particleColor count connectionDistance
                          maxConnections rng c0 = (Ok (ps, g), c1) ->
    length (positions ps) = (Z.to_nat count * 3)%nat /\
    forall i : nat,
      (Z.of_nat i < count)%Z ->
      exists x z : R,
        positions ps !!! (i * 3)%nat = Fin x /\
        positions ps !!! (i * 3 + 2)%nat = Fin z /\
        -50 <= x < 50 /\ -50 <= z < 50.
Proof.
  intros three pc rng count cd maxC c0 c1 ps g Hrng.
  unfold WaveParticles.useMemo.
  destruct (Float32Array_new _) as [p0|] eqn:Hnew; [|discriminate].
  apply useMemo_loop_lengths in Hnew. destruct Hnew as [Hpos Hlen0].
  unfold rbind, ret.
  pose proof (WaveParticles_loop three pc rng (Z.to_nat count)
                {| positions := p0; colors := p0 |} c0 Hrng) as Hloop.
  cbv zeta in Hloop.
  destruct (for_rand _ _ _ rng c0) as [[ps' vs] c'].
  cbn [fst snd positions colors] in Hloop.
  destruct Hloop as (Hp & _ & _ & Hslots).
  intros [= <- <- <-]. split; [lia|].
  intros i Hi.
  destruct (Hslots i) as (Hx & _ & Hz & Hbx & _ & Hbz); [lia|lia|].
  exists (vx (vs !!! i)), (vz (vs !!! i)). auto.
Qed.

(** X13.  A frame of the wave particles on the cloud their generator
    made (draws in [0, 1)): every particle keeps its x and z inside
    [-50, 50) and is moved to a finite height of at most
    2 * |waveIntensity|. *)
Theorem WaveParticles_frame_on_cloud :
  forall (three : Three) (particleColor : string) (rng : nat -> R)
         (count : Z) (connectionDistance : R) (maxConnections : Z)
         (c0 c1 : nat) (ps : ParticleSet) (g : list (nat * nat))
         (elapsedTime waveSpeed waveIntensity : R),
    unit_source rng ->
    WaveParticles.useMemo three particleColor count connectionDistance
                          maxConnections rng c0 = (Ok (ps, g), c1) ->
    exists ps',
      WaveParticles.useFrame count elapsedTime waveSpeed waveIntensity
                             (Some ps) = Some ps' /\
      forall i : nat,
        (Z.of_nat i < count)%Z ->
        exists x y z : R,
          positions ps' !! (i * 3)%nat = Some (Fin x) /\
          positions ps' !! (i * 3 + 1)%nat = Some (Fin y) /\
          positions ps' !! (i * 3 + 2)%nat = Some (Fin z) /\
          positions ps !! (i * 3)%nat = Some (Fin x) /\
          positions ps !! (i * 3 + 2)%nat = Some (Fin z) /\
          -50 <= x < 50 /\ -50 <= z < 50 /\
          Rabs y <= 2 * Rabs waveIntensity.
Proof.
  intros three pc rng count cd maxC c0 c1 ps g e ws I Hrng Hrun.
  destruct (WaveParticles_cloud_slots three pc rng count cd maxC c0 c1 ps g
              Hrng Hrun) as [Hlen Hcloud].
  eexists. split; [reflexivity|]. cbn [positions].
  intros i Hi. destruct (Hcloud i Hi) as (x & z & Hx & Hz & Hbx & Hbz).
  rewrite WaveParticles_update_sweep.
  destruct (sweep_particle (WaveParticles_y (e * ws) I) (Z.to_nat count)
              (positions ps) i) as (Hx' & Hy' & Hz'); [lia|lia|].
  rewrite Hx', Hy', Hz'.
  rewrite !(list_lookup_lookup_total_lt (positions ps)) by lia.
  rewrite Hx, Hz. unfold WaveParticles_y. cbn [lift2 bind].
  exists x, (WaveParticles.height x z (e * ws) I), z.
  repeat (split; [reflexivity || assumption|]).
  apply WaveParticles_height_abs.
Qed.

(** Two particles, one frame, the default parameters. *)
Lemma WaveParticles_frame_on_cloud_witness :
  exists (ps' : ParticleSet) (y : R),
    positions ps' !! 1%nat = Some (Fin y) /\ Rabs y <= 2 * Rabs 5.
Proof.
  destruct (WaveParticles_useMemo_runs grey_three EmptyString 8 500
              half_source 0) as (ps & g & c1 & Hrun).
  destruct (WaveParticles_frame_on_cloud grey_three EmptyString half_source
              2 8 500 0%nat c1 ps g 1 (1 / 2) 5 half_source_unit Hrun)
    as (ps' & _ & H).
  destruct (H 0%nat) as (x & y & z & _ & Hy & _ & _ & _ & _ & _ & Hb); [lia|].
  exists ps', y. auto.
Defined.

(** The position slots of vertex (i, j) of the WaveField grid. *)
Lemma WaveField_grid_slots (segments : Z) (i j : nat) :
  (1 <= segments)%Z ->
  (Z.of_nat i <= segments)%Z -> (Z.of_nat j <= segments)%Z ->
  let p := grid_positions (WaveField.useMemo segments) in
  let k := (i * Z.to_nat (segments + 1) + j)%nat in
  (k * 3 + 2 < length p)%nat /\
  p !!! (k * 3)%nat = Fin ((INR i / IZR segments - 0.5) * 100) /\
  p !!! (k * 3 + 2)%nat = Fin ((INR j / IZR segments - 0.5) * 100).
Proof.
  intros Hs Hi Hj p k.
  destruct (surface_positions_length 0 segments) as [Hlen _]. fold p in Hlen.
  set (n := Z.to_nat (segments + 1)) in *.
  assert (Hin : (i < n)%nat) by lia. assert (Hjn : (j < n)%nat) by lia.
  split; [subst k; nia|].
  assert (Hnz : IZR segments <> 0)
    by (apply IZR_le in Hs; intros H0; rewrite H0 in Hs; lra).
  assert (Hlook : forall r, (r < 3)%nat ->
            p !! (k * 3 + r)%nat = WaveField_vertex segments i j !! r).
  { intros r Hr. subst p. unfold WaveField.useMemo. cbv zeta.
    rewrite WaveField_vertices_grid. cbn [grid_positions].
    apply (grid_of_lookup (WaveField_vertex segments) n i j r);
      [reflexivity|lia|lia|exact Hr]. }
  split.
  - apply list_lookup_total_correct.
    replace (k * 3)%nat with (k * 3 + 0)%nat by lia.
    rewrite Hlook by lia. unfold WaveField_vertex.
    rewrite js_div_nonzero by exact Hnz. reflexivity.
  - apply list_lookup_total_correct. rewrite Hlook by lia.
    unfold WaveField_vertex. rewrite !js_div_nonzero by exact Hnz.
    reflexivity.
Qed.

(** X14.  A frame of the WaveField on the grid it built, with at least
    one segment: vertex (i, j) keeps its x and z on the lattice and
    gets a finite height of at most 8.5 * |waveIntensity|, which is 0
    when the intensity is 0. *)
Theorem WaveField_frame_on_grid :
  forall (segments : Z) (i j : nat) (elapsedTime waveSpeed waveIntensity : R),
    (1 <= segments)%Z ->
    (Z.of_nat i <= segments)%Z -> (Z.of_nat j <= segments)%Z ->
    let n := Z.to_nat (segments + 1) in
    exists (positions' : buffer) (y : R),
      WaveField.useFrame elapsedTime waveSpeed waveIntensity
        (Some (grid_positions (WaveField.useMemo segments)))
      = Some positions' /\
      positions' !! vertex_slot n i j 0
        = Some (Fin ((INR i / IZR segments - 0.5) * 100)) /\
      positions' !! vertex_slot n i j 1 = Some (Fin y) /\
      positions' !! vertex_slot n i j 2
        = Some (Fin ((INR j / IZR segments - 0.5) * 100)) /\
      Rabs y <= 8.5 * Rabs waveIntensity /\
      (waveIntensity = 0 -> y = 0).
Proof.
  intros segments i j e ws I Hs Hi Hj n.
  destruct (WaveField_grid_slots segments i j Hs Hi Hj) as (Hlen & Hx & Hz).
  fold n in Hlen, Hx, Hz.
  set (p := grid_positions (WaveField.useMemo segments)) in *.
  set (k := (i * n + j)%nat) in *.
  exists (WaveField.update (e * ws) I p).
  exists (WaveField.height ((INR i / IZR segments - 0.5) * 100)
                           ((INR j / IZR segments - 0.5) * 100) (e * ws) I).
  split; [reflexivity|].
  rewrite WaveField_update_sweep.
  destruct (sweep_particle (WaveField_y (e * ws) I)
              ((length p + 2) / 3) p k) as (Hx' & Hy' & Hz'); [lia|lia|].
  unfold vertex_slot. fold k.
  replace (k * 3 + 0)%nat with (k * 3)%nat by lia.
  rewrite Hx', Hy', Hz'.
  rewrite !(list_lookup_lookup_total_lt p) by lia.
  rewrite Hx, Hz. unfold WaveField_y. cbn [lift2 bind].
  repeat (split; [reflexivity|]).
  split; [apply WaveField_height_abs|].
  intros ->. unfold WaveField.height. cbv zeta. ring.
Qed.

(** The centre vertex of a two-segment grid after one frame. *)
Lemma WaveField_frame_on_grid_witness :
  exists (positions' : buffer) (y : R),
    positions' !! vertex_slot 3 1 1 1 = Some (Fin y) /\
    Rabs y <= 8.5 * Rabs (1 / 2).
Proof.
  destruct (WaveField_frame_on_grid 2 1 1 1 (1 / 2) (1 / 2))
    as (p' & y & _ & _ & Hy & _ & Hb & _); [lia|lia|lia|].
  exists p', y. split; [exact Hy|exact Hb].
Defined.

(** ** The orbital zones *)

Lemma write_color_at i color (c : buffer) :
  (i * 3 + 2 < length c)%nat ->
  write_color i color c !!! (i * 3)%nat = Fin (color_r color) /\
  write_color i color c !!! (i * 3 + 1)%nat = Fin (color_g color) /\
  write_color i color c !!! (i * 3 + 2)%nat = Fin (color_b color).
Proof.
  intros Hi. unfold write_color.
  rewrite !list_lookup_total_insert, !length_insert.
  repeat (destruct (decide _); try (exfalso; lia)). auto.
Qed.

Lemma write_color_other i color (c : buffer) j :
  (j / 3 <> i)%nat -> write_color i color c !!! j = c !!! j.
Proof.
  intros Hj. unfold write_color.
  rewrite !list_lookup_total_insert_ne by lia. reflexivity.
Qed.

Lemma OrbitalZone_loop (colorObj : Color) (minRadius maxRadius : R)
      (rng : nat -> R) (k : nat) (ps0 : ParticleSet) (c0 : nat) :
  let st := (for_rand k (OrbitalZone.body colorObj minRadius maxRadius)
                      (ps0, []) rng c0).1 in
  length (positions st.1) = length (positions ps0) /\
  length (colors st.1) = length (colors ps0) /\
  length st.2 = k /\
  forall i, (i < k)%nat ->
    (i * 3 + 2 < length (positions ps0))%nat ->
    (i * 3 + 2 < length (colors ps0))%nat ->
    exists n,
      st.2 !! i = Some (zone_arrow minRadius maxRadius rng n) /\
      (let '(x, y, z) :=
         OrbitalZone.arrow_position (zone_arrow minRadius maxRadius rng n) in
       positions st.1 !!! (i * 3)%nat = Fin x /\
       positions st.1 !!! (i * 3 + 1)%nat = Fin y /\
       positions st.1 !!! (i * 3 + 2)%nat = Fin z) /\
      colors st.1 !!! (i * 3)%nat = Fin (color_r colorObj) /\
      colors st.1 !!! (i * 3 + 1)%nat = Fin (color_g colorObj) /\
      colors st.1 !!! (i * 3 + 2)%nat = Fin (color_b colorObj).
Proof.
  induction k as [|k (IHp & IHc & IHa & IH)]; cbv zeta.
  - cbn. split; [reflexivity|]. split; [reflexivity|].
    split; [reflexivity|]. intros; lia.
  - unfold for_rand in *. rewrite for_loop_S.
    destruct (for_loop k _ _) as [[ps arrows] c]. cbn [fst snd] in *.
    unfold OrbitalZone.body, rbind, Math_random, ret.
    cbn [fst snd positions colors].
    split; [rewrite write_position_length; exact IHp|].
    split; [rewrite write_color_length; exact IHc|].
    split; [rewrite length_app; cbn; lia|].
    intros i Hi Hlenp Hlenc.
    destruct (decide (i = k)) as [->|Hne].
    + exists c. split.
      * rewrite lookup_app_r by lia.
        replace (k - length arrows)%nat with 0%nat by lia. reflexivity.
      * unfold zone_arrow. cbn [OrbitalZone.arrow_position].
        rewrite write_position_x, write_position_y, write_position_z by lia.
        split; [auto|]. apply write_color_at. lia.
    + destruct (IH i) as (n & Ha & Hp & Hc); [lia|lia|lia|].
      exists n. rewrite lookup_app_l by lia. split; [exact Ha|].
      rewrite !write_position_other, !write_color_other by lia.
      split; [exact Hp|exact Hc].
Qed.

Lemma zone_arrow_direction (minRadius maxRadius : R) (rng : nat -> R)
      (n : nat) :
  unit_source rng ->
  let a := zone_arrow minRadius maxRadius rng n in
  let '(x, y, z) := OrbitalZone.arrow_position a in
  let '(dx, dy, dz) := OrbitalZone.arrow_direction a in
  dy = 0 /\
  0.7225 <= dx * dx + dz * dz <= 1 /\
  Rabs (dx * x + dz * z) <= 0.15 * sqrt (x * x + z * z).
Proof.
  intros Hrng. unfold zone_arrow. cbv zeta.
  cbn [OrbitalZone.arrow_position OrbitalZone.arrow_direction].
  rewrite cos_plus, sin_plus, cos_PI2, sin_PI2.
  set (angle := rng n * PI * 2).
  set (radius := minRadius + rng (S n) * (maxRadius - minRadius)).
  set (rc := (rng (S (S (S n))) - 0.5) * 0.3).
  pose proof (Hrng (S (S (S n)))) as Hu.
  assert (Hrc : -0.15 <= rc < 0.15) by (unfold rc; lra).
  assert (Har : 0 <= Rabs rc <= 0.15).
  { unfold Rabs. destruct (Rcase_abs rc); lra. }
  assert (Har2 : Rabs rc * Rabs rc = rc * rc).
  { unfold Rabs. destruct (Rcase_abs rc); ring. }
  set (ar := Rabs rc) in *.
  assert (Hm : 1 - ar = 1 - ar) by reflexivity.
  set (m := 1 - ar) in Hm at 1 |- *.
  pose proof (sin2_cos2 angle) as Hsc. unfold Rsqr in Hsc.
  set (s := sin angle) in *. set (c := cos angle) in *.
  split; [reflexivity|]. split.
  - replace ((c * 0 - s * 1) * m + c * rc) with (c * rc - s * m) by ring.
    replace ((s * 0 + c * 1) * m + s * rc) with (c * m + s * rc) by ring.
    replace ((c * rc - s * m) * (c * rc - s * m)
             + (c * m + s * rc) * (c * m + s * rc))
      with ((s * s + c * c) * (m * m + rc * rc)) by ring.
    rewrite Hsc. nra.
  - replace (((c * 0 - s * 1) * m + c * rc) * (c * radius)
             + ((s * 0 + c * 1) * m + s * rc) * (s * radius))
      with ((s * s + c * c) * (rc * radius)) by ring.
    rewrite Hsc, Rmult_1_l.
    replace (c * radius * (c * radius) + s * radius * (s * radius))
      with ((s * s + c * c) * Rsqr radius) by (unfold Rsqr; ring).
    rewrite Hsc, Rmult_1_l, sqrt_Rsqr_abs, Rabs_mult. fold ar.
    pose proof (Rabs_pos radius).
    nra.
Qed.

(** What the zone generator returns: the buffers, and the arrows of
    the first 50 particles. *)
Lemma OrbitalZone_useMemo_slots (colorObj : Color) (minRadius maxRadius : R)
      (rng : nat -> R) (particleCount : Z) (c0 c1 : nat) (ps : ParticleSet)
      (arrowData : list OrbitalZone.Arrow) :
  OrbitalZone.useMemo colorObj minRadius maxRadius particleCount rng c0
    = (Ok (ps, arrowData), c1) ->
  length (positions ps) = (Z.to_nat particleCount * 3)%nat /\
  length (colors ps) = (Z.to_nat particleCount * 3)%nat /\
  length arrowData = Nat.min 50 (Z.to_nat particleCount) /\
  forall i, (Z.of_nat i < particleCount)%Z ->
    exists n,
      ((i < 50)%nat ->
       arrowData !! i = Some (zone_arrow minRadius maxRadius rng n)) /\
      (let '(x, y, z) :=
         OrbitalZone.arrow_position (zone_arrow minRadius maxRadius rng n) in
       positions ps !! (i * 3)%nat = Some (Fin x) /\
       positions ps !! (i * 3 + 1)%nat = Some (Fin y) /\
       positions ps !! (i * 3 + 2)%nat = Some (Fin z)) /\
      colors ps !! (i * 3)%nat = Some (Fin (color_r colorObj)) /\
      colors ps !! (i * 3 + 1)%nat = Some (Fin (color_g colorObj)) /\
      colors ps !! (i * 3 + 2)%nat = Some (Fin (color_b colorObj)).
Proof.
  unfold OrbitalZone.useMemo.
  destruct (Float32Array_new _) as [p0|] eqn:Hnew; [|discriminate].
  apply useMemo_loop_lengths in Hnew. destruct Hnew as [Hpos Hlen0].
  unfold rbind, ret.
  pose proof (OrbitalZone_loop colorObj minRadius maxRadius rng
                (Z.to_nat particleCount)
                {| positions := p0; colors := p0 |} c0) as Hloop.
  cbv zeta in Hloop.
  destruct (for_rand _ _ _ rng c0) as [[ps' arrows] c'].
  cbn [fst snd positions colors] in Hloop.
  destruct Hloop as (Hp & Hc & Ha & Hslots).
  set (m := Nat.min 50 (length arrows)).
  assert (Hm : m = Nat.min 50 (length arrows)) by reflexivity.
  clearbody m. intros [= <- <- <-]. subst m.
  split; [lia|]. split; [lia|].
  split; [rewrite length_take; lia|].
  intros i Hi.
  destruct (Hslots i) as (n & Harrow & Hxyz & Hr & Hg & Hb); [lia|lia|lia|].
  exists n. split.
  - intros Hi50. rewrite lookup_take_lt by lia. exact Harrow.
  - unfold zone_arrow in *. cbn [OrbitalZone.arrow_position] in *.
    destruct Hxyz as (Hx & Hy & Hz).
    repeat split; apply list_lookup_alt; (split; [lia|assumption]).
Qed.

(** X15.  With draws in [0, 1) and 0 <= minRadius <= maxRadius, an
    orbital zone has 3 * particleCount position and colour numbers;
    every particle lies at a distance from the axis between minRadius
    and maxRadius, at most 0.1 above or below the plane, and carries
    the zone's colour. *)
Theorem OrbitalZone_ring :
  forall (colorObj : Color) (minRadius maxRadius : R) (rng : nat -> R)
         (particleCount : Z) (c0 c1 : nat) (ps : ParticleSet)
         (arrowData : list OrbitalZone.Arrow),
    unit_source rng -> 0 <= minRadius <= maxRadius ->
    OrbitalZone.useMemo colorObj minRadius maxRadius particleCount rng c0
      = (Ok (ps, arrowData), c1) ->
    length (positions ps) = (Z.to_nat particleCount * 3)%nat /\
    length (colors ps) = (Z.to_nat particleCount * 3)%nat /\
    forall i : nat,
      (Z.of_nat i < particleCount)%Z ->
      exists x y z : R,
        positions ps !! (i * 3)%nat = Some (Fin x) /\
        positions ps !! (i * 3 + 1)%nat = Some (Fin y) /\
        positions ps !! (i * 3 + 2)%nat = Some (Fin z) /\
        minRadius <= sqrt (x * x + z * z) <= maxRadius /\
        Rabs y <= 0.1 /\
        colors ps !! (i * 3)%nat = Some (Fin (color_r colorObj)) /\
        colors ps !! (i * 3 + 1)%nat = Some (Fin (color_g colorObj)) /\
        colors ps !! (i * 3 + 2)%nat = Some (Fin (color_b colorObj)).
Proof.
  intros colorObj minR maxR rng count c0 c1 ps arrowData Hrng Hr Hrun.
  destruct (OrbitalZone_useMemo_slots _ _ _ _ _ _ _ _ _ Hrun)
    as (Hp & Hc & _ & Hslots).
  split; [exact Hp|]. split; [exact Hc|].
  intros i Hi. destruct (Hslots i Hi) as (n & _ & Hxyz & Hcol).
  unfold zone_arrow in Hxyz. cbn [OrbitalZone.arrow_position] in Hxyz.
  destruct Hxyz as (Hx & Hy & Hz).
  do 3 eexists. split; [exact Hx|]. split; [exact Hy|]. split; [exact Hz|].
  pose proof (Hrng (S n)) as Hu. pose proof (Hrng (S (S n))) as Hu'.
  split.
  - rewrite spiral_planar, sqrt_square by nra. split; nra.
  - split; [|exact Hcol]. unfold Rabs. destruct (Rcase_abs _); lra.
Qed.

Lemma OrbitalZone_useMemo_runs colorObj minRadius maxRadius rng c0 :
  exists ps arrowData c1,
    OrbitalZone.useMemo colorObj minRadius maxRadius 1 rng c0
      = (Ok (ps, arrowData), c1).
Proof.
  unfold OrbitalZone.useMemo.
  change (Float32Array_new (1 * 3)) with (Ok (replicate 3 (Fin 0))).
  unfold rbind, ret. destruct (for_rand _ _ _ rng c0) as [[ps arrows] c1].
  do 3 eexists. reflexivity.
Qed.

(** One particle of the innermost zone with every draw 1/2. *)
Lemma OrbitalZone_ring_witness :
  exists (ps : ParticleSet) (x z : R),
    positions ps !! 0%nat = Some (Fin x) /\
    positions ps !! 2%nat = Some (Fin z) /\
    3 <= sqrt (x * x + z * z) <= 6.25.
Proof.
  destruct (OrbitalZone_useMemo_runs
              {| color_r := 1; color_g := 0; color_b := 0 |} 3 6.25
              half_source 0) as (ps & arrowData & c1 & Hrun).
  destruct (OrbitalZone_ring {| color_r := 1; color_g := 0; color_b := 0 |}
              3 6.25 half_source 1 0%nat c1 ps arrowData
              half_source_unit) as (_ & _ & H); [lra|exact Hrun|].
  destruct (H 0%nat) as (x & y & z & Hx & _ & Hz & Hb & _); [lia|].
  exists ps, x, z. auto.
Defined.

(** X16.  The arrows of an orbital zone (draws in [0, 1)): there are
    min(50, particleCount) of them; arrow k starts at particle k's
    position; its direction is horizontal, never zero (squared length
    between 0.7225 and 1), and within 0.15 of tangent to the circle
    through the particle (its radial part is at most 0.15 of the
    particle's distance from the axis, per unit of that distance). *)
Theorem OrbitalZone_arrows :
  forall (colorObj : Color) (minRadius maxRadius : R) (rng : nat -> R)
         (particleCount : Z) (c0 c1 : nat) (ps : ParticleSet)
         (arrowData : list OrbitalZone.Arrow),
    unit_source rng ->
    OrbitalZone.useMemo colorObj minRadius maxRadius particleCount rng c0
      = (Ok (ps, arrowData), c1) ->
    length arrowData = Nat.min 50 (Z.to_nat particleCount) /\
    forall k : nat,
      (k < length arrowData)%nat ->
      exists x y z dx dz : R,
        arrowData !! k
          = Some {| OrbitalZone.arrow_position := (x, y, z);
                    OrbitalZone.arrow_direction := (dx, 0, dz) |} /\
        positions ps !! (k * 3)%nat = Some (Fin x) /\
        positions ps !! (k * 3 + 1)%nat = Some (Fin y) /\
        positions ps !! (k * 3 + 2)%nat = Some (Fin z) /\
        0.7225 <= dx * dx + dz * dz <= 1 /\
        Rabs (dx * x + dz * z) <= 0.15 * sqrt (x * x + z * z).
Proof.
  intros colorObj minR maxR rng count c0 c1 ps arrowData Hrng Hrun.
  destruct (OrbitalZone_useMemo_slots _ _ _ _ _ _ _ _ _ Hrun)
    as (_ & _ & Hlen & Hslots).
  split; [exact Hlen|].
  intros k Hk. destruct (Hslots k) as (n & Harrow & Hxyz & _); [lia|].
  pose proof (zone_arrow_direction minR maxR rng n Hrng) as Hdir.
  cbv zeta in Hdir. specialize (Harrow ltac:(lia)).
  destruct (zone_arrow minR maxR rng n) as [[[x y] z] [[dx dy] dz]].
  cbn [OrbitalZone.arrow_position OrbitalZone.arrow_direction] in *.
  destruct Hdir as (-> & Hnorm & Htan). destruct Hxyz as (Hx & Hy & Hz).
  exists x, y, z, dx, dz. auto 10.
Qed.

(** The arrow of the one particle of a zone with every draw 1/2. *)
Lemma OrbitalZone_arrows_witness :
  exists (arrowData : list OrbitalZone.Arrow) (dx dz : R),
    length arrowData = 1%nat /\ 0.7225 <= dx * dx + dz * dz <= 1.
Proof.
  destruct (OrbitalZone_useMemo_runs
              {| color_r := 1; color_g := 0; color_b := 0 |} 3 6.25
              half_source 0) as (ps & arrowData & c1 & Hrun).
  destruct (OrbitalZone_arrows {| color_r := 1; color_g := 0; color_b := 0 |}
              3 6.25 half_source 1 0%nat c1 ps arrowData
              half_source_unit Hrun) as (Hlen & H).
  destruct (H 0%nat) as (x & y & z & dx & dz & _ & _ & _ & _ & Hn & _);
    [rewrite Hlen; lia|].
  exists arrowData, dx, dz. split; [exact Hlen|exact Hn].
Defined.

(** ** The thickness of the galaxy *)

(** With a bulge size above 0, a star is placed at a finite height,
    within 0.3 * bulgeSize + 0.1 of the plane in the bulge and within
    0.3 of it in the arms. *)
Lemma place_height (galaxyRadius armCount barLength bulgeSize
                    spiralTightness : R) (rng : nat -> R) (n : nat) :
  unit_source rng -> 0 <= galaxyRadius -> 0 < bulgeSize ->
  exists x y z,
    (Galaxy.place galaxyRadius armCount barLength bulgeSize spiralTightness
                  rng n).1 = (x, Fin y, z) /\
    Rabs y <= Rmax (0.3 * bulgeSize) 0.2 + 0.1.
Proof.
  intros Hrng HgR HbS.
  pose proof (sampled_radius_range galaxyRadius rng Hrng HgR n) as Hrad.
  pose proof (Hrng (S n)) as Hu.
  pose proof (Rmax_l (0.3 * bulgeSize) 0.2) as Hmax1.
  pose proof (Rmax_r (0.3 * bulgeSize) 0.2) as Hmax2.
  unfold Galaxy.place, rbind, Math_random. cbv zeta.
  fold (sampled_radius galaxyRadius rng n).
  set (radius := sampled_radius galaxyRadius rng n) in *.
  unfold ltb at 1. destruct (Rlt_dec radius bulgeSize) as [Hb|Hb].
  - unfold Galaxy.bulge, rbind, Math_random, ret. cbv zeta. cbn [fst snd].
    rewrite Math_acos_finite by (pose proof (Hrng (S (S n))); lra).
    cbn [lift1 bind]. do 3 eexists. split; [reflexivity|].
    pose proof (Hrng (S (S (S (S n))))) as Hu5.
    pose proof (Hrng (S (S (S (S (S (S n))))))) as Hj.
    set (r := radius * (0.3 + rng (S (S (S (S n)))) * 0.7)).
    assert (Hr : 0 <= r <= radius) by (unfold r; split; nra).
    set (s1 := sin (acos _)). set (s2 := sin (_ * PI * 2)).
    assert (H1 : -1 <= s1 <= 1) by apply SIN_bound.
    assert (H2 : -1 <= s2 <= 1) by apply SIN_bound.
    assert (H12 : -1 <= s1 * s2 <= 1) by (split; nra).
    assert (Hy0 : - (0.3 * radius) <= r * s1 * s2 * 0.3 <= 0.3 * radius)
      by (split; nra).
    unfold Rabs. destruct (Rcase_abs _); lra.
  - unfold Galaxy.spiral, rbind, Math_random, ret. cbv zeta. cbn [fst snd].
    assert (Hlt : radius < galaxyRadius).
    { unfold radius, sampled_radius in *. nra. }
    rewrite (js_div_nonzero _ (galaxyRadius - bulgeSize)) by lra.
    cbn [lift1 bind]. do 3 eexists. split; [reflexivity|].
    pose proof (Hrng (S (S n))) as Hu3.
    pose proof (Hrng (S (S (S (S n))))) as Hj.
    assert (Hinv : 0 < / (galaxyRadius - bulgeSize))
      by (apply Rinv_0_lt_compat; lra).
    assert (Hone : (galaxyRadius - bulgeSize) * / (galaxyRadius - bulgeSize)
                   = 1) by (apply Rinv_r; lra).
    assert (Hnr : 0 <= (radius - bulgeSize) / (galaxyRadius - bulgeSize) <= 1)
      by (unfold Rdiv; split; nra).
    set (nr := (radius - bulgeSize) / (galaxyRadius - bulgeSize)) in *.
    assert (Hy0 : -0.2 <= (rng (S (S n)) - 0.5) * 0.4 * (1 - nr * 0.5) <= 0.2)
      by (split; nra).
    unfold Rabs. destruct (Rcase_abs _); lra.
Qed.

(** X17.  With draws in [0, 1), a galaxy radius of 0 or more and a
    bulge size above 0, the galaxy generator fills 3 * count position
    numbers, and every star has a finite height within
    max(0.3 * bulgeSize, 0.2) + 0.1 of the galactic plane, whatever
    the arm count. *)
Theorem Galaxy_disk_thickness :
  forall (three : Three) (rng : nat -> R)
         (galaxyRadius armCount barLength bulgeSize spiralTightness : R)
         (particleCount : Z) (c0 c1 : nat) (ps : ParticleSet),
    unit_source rng -> 0 <= galaxyRadius -> 0 < bulgeSize ->
    Galaxy.useMemo three galaxyRadius armCount barLength bulgeSize
      spiralTightness particleCount rng c0 = (Ok ps, c1) ->
    length (positions ps) = (Z.to_nat particleCount * 3)%nat /\
    forall i : nat,
      (Z.of_nat i < particleCount)%Z ->
      exists y : R,
        positions ps !! (i * 3 + 1)%nat = Some (Fin y) /\
        Rabs y <= Rmax (0.3 * bulgeSize) 0.2 + 0.1.
Proof.
  intros three rng gR aC bL bS sT count c0 c1 ps Hrng HgR HbS.
  unfold Galaxy.useMemo. cbv zeta.
  destruct (Float32Array_new _) as [p0|] eqn:Hnew; [|discriminate].
  apply useMemo_loop_lengths in Hnew. destruct Hnew as [Hpos Hlen0].
  unfold rbind, ret.
  pose proof (for_rand_slots positions (Galaxy.body three gR aC bL bS sT)
    (fun c => (Galaxy.place gR aC bL bS sT rng c).1) rng
    (fun i s c => Galaxy_body_positions three gR aC bL bS sT rng i s c)
    (Z.to_nat count) {| positions := p0; colors := p0 |} c0) as Hloop.
  cbv zeta in Hloop. destruct (for_rand _ _ _ rng c0) as [ps' c'].
  cbn [fst positions] in Hloop. destruct Hloop as [Hlen Hslots].
  intros [= <- <-]. split; [lia|].
  intros i Hi.
  destruct (Hslots i) as (n & x & y & z & Hplace & _ & Hy & _); [lia|lia|].
  destruct (place_height gR aC bL bS sT rng n Hrng HgR HbS)
    as (x' & y' & z' & Hplace' & Hb).
  rewrite Hplace in Hplace'. injection Hplace' as _ -> _.
  exists y'. split; [|exact Hb].
  apply list_lookup_alt. split; [lia|exact Hy].
Qed.

(** One star with the default parameters and every draw 1/2. *)
Lemma Galaxy_disk_thickness_witness :
  exists (ps : ParticleSet) (y : R),
    positions ps !! 1%nat = Some (Fin y) /\
    Rabs y <= Rmax (0.3 * 3) 0.2 + 0.1.
Proof.
  destruct (Galaxy_useMemo_runs grey_three 25 4 8 3 (1 / 2) half_source 0)
    as (ps & c1 & Hrun).
  destruct (Galaxy_disk_thickness grey_three half_source 25 4 8 3 (1 / 2)
              1 0%nat c1 ps half_source_unit) as [_ H]; [lra|lra|exact Hrun|].
  destruct (H 0%nat) as (y & Hy & Hb); [lia|].
  exists ps, y. auto.
Defined.

(** ** The surface of the Great Wave *)

Lemma GreatWaveSurface_grid_slots (galaxyRadius : R) (segments : Z)
      (i j : nat) :
  (1 <= segments)%Z ->
  (Z.of_nat i <= segments)%Z -> (Z.of_nat j <= segments)%Z ->
  let p := grid_positions (GreatWaveSurface.useMemo galaxyRadius segments) in
  let k := (i * Z.to_nat (segments + 1) + j)%nat in
  let angle := INR i / IZR segments * PI * 2 in
  let radius := (0.6 + INR j / IZR segments * 0.7) * galaxyRadius in
  (k * 3 + 2 < length p)%nat /\
  p !!! (k * 3)%nat = Fin (cos angle * radius) /\
  p !!! (k * 3 + 2)%nat = Fin (sin angle * radius).
Proof.
  intros Hs Hi Hj p k angle radius.
  destruct (surface_positions_length galaxyRadius segments) as [_ Hlen].
  fold p in Hlen.
  set (n := Z.to_nat (segments + 1)) in *.
  assert (Hin : (i < n)%nat) by lia. assert (Hjn : (j < n)%nat) by lia.
  split; [subst k; nia|].
  assert (Hnz : IZR segments <> 0)
    by (apply IZR_le in Hs; intros H0; rewrite H0 in Hs; lra).
  assert (Hlook : forall r, (r < 3)%nat ->
            p !! (k * 3 + r)%nat
            = GreatWaveSurface_vertex galaxyRadius segments i j !! r).
  { intros r Hr. subst p. unfold GreatWaveSurface.useMemo. cbv zeta.
    rewrite GreatWaveSurface_vertices_grid. cbn [grid_positions].
    apply (grid_of_lookup (GreatWaveSurface_vertex galaxyRadius segments)
                          n i j r); [reflexivity|lia|lia|exact Hr]. }
  split.
  - apply list_lookup_total_correct.
    replace (k * 3)%nat with (k * 3 + 0)%nat by lia.
    rewrite Hlook by lia. unfold GreatWaveSurface_vertex. cbv zeta.
    rewrite !js_div_nonzero by exact Hnz. reflexivity.
  - apply list_lookup_total_correct. rewrite Hlook by lia.
    unfold GreatWaveSurface_vertex. cbv zeta.
    rewrite !js_div_nonzero by exact Hnz. reflexivity.
Qed.

(** X18.  A frame of the Great Wave surface, shown, on the grid it
    built (at least one segment, galaxy radius 0 or more, waveLength
    other than 0): vertex (i, j) keeps its x and z, at
    (0.6 + 0.7 * j / segments) galaxy radii from the axis, and gets a
    finite height of at most 1.3 * |waveAmplitude|.  And from every
    state a second frame at the same time changes nothing. *)
Theorem GreatWaveSurface_frame_on_grid :
  forall (galaxyRadius : R) (segments : Z) (i j : nat)
         (elapsedTime waveAmplitude waveLength waveSpeed : R),
    (1 <= segments)%Z -> 0 <= galaxyRadius -> waveLength <> 0 ->
    (Z.of_nat i <= segments)%Z -> (Z.of_nat j <= segments)%Z ->
    let n := Z.to_nat (segments + 1) in
    let frame := GreatWaveSurface.useFrame true elapsedTime waveAmplitude
                                           waveLength waveSpeed in
    (exists (positions' : buffer) (x y z : R),
        frame (Some (grid_positions
                       (GreatWaveSurface.useMemo galaxyRadius segments)))
          = Some positions' /\
        positions' !! vertex_slot n i j 0 = Some (Fin x) /\
        positions' !! vertex_slot n i j 1 = Some (Fin y) /\
        positions' !! vertex_slot n i j 2 = Some (Fin z) /\
        grid_positions (GreatWaveSurface.useMemo galaxyRadius segments)
          !! vertex_slot n i j 0 = Some (Fin x) /\
        grid_positions (GreatWaveSurface.useMemo galaxyRadius segments)
          !! vertex_slot n i j 2 = Some (Fin z) /\
        sqrt (x * x + z * z)
          = (0.6 + INR j / IZR segments * 0.7) * galaxyRadius /\
        Rabs y <= 1.3 * Rabs waveAmplitude) /\
    (forall meshRef : option buffer, frame (frame meshRef) = frame meshRef).
Proof.
  intros gR segments i j t A wl ws Hs HgR Hwl Hi Hj n frame. split.
  - destruct (GreatWaveSurface_grid_slots gR segments i j Hs Hi Hj)
      as (Hlen & Hx & Hz).
    cbv zeta in Hlen, Hx, Hz. fold n in Hlen, Hx, Hz.
    set (p := grid_positions (GreatWaveSurface.useMemo gR segments)) in *.
    set (k := (i * n + j)%nat) in *.
    set (angle := INR i / IZR segments * PI * 2) in *.
    set (radius := (0.6 + INR j / IZR segments * 0.7) * gR) in *.
    destruct (GreatWave_displacement_finite (cos angle * radius)
                (sin angle * radius) t A wl ws Hwl) as (d & Hd & Hbd).
    exists (GreatWaveSurface.update t A wl ws p).
    exists (cos angle * radius), d, (sin angle * radius).
    split; [reflexivity|].
    rewrite GreatWaveSurface_update_sweep.
    destruct (sweep_particle (GreatWaveSurface_y t A wl ws)
                ((length p + 2) / 3) p k) as (Hx' & Hy' & Hz'); [lia|lia|].
    unfold vertex_slot. fold k.
    replace (k * 3 + 0)%nat with (k * 3)%nat by lia.
    rewrite Hx', Hy', Hz'.
    rewrite !(list_lookup_lookup_total_lt p) by lia.
    rewrite Hx, Hz. unfold GreatWaveSurface_y. cbn [bind].
    change (GreatWaveSurface.displacement (cos angle * radius)
              (sin angle * radius) t A wl ws)
      with (GreatWave.displacement (cos angle * radius)
              (sin angle * radius) t A wl ws).
    rewrite Hd.
    assert (Hq := INR_ratio j segments Hs Hj).
    repeat (split; [reflexivity|]).
    split; [|exact Hbd].
    rewrite spiral_planar, sqrt_square by (unfold radius; nra). reflexivity.
  - intros [p|]; [|reflexivity]. subst frame.
    cbn [GreatWaveSurface.useFrame]. f_equal.
    rewrite !GreatWaveSurface_update_sweep, sweep_length. apply sweep_idem.
Qed.

(** A vertex of the outer edge of a two-segment surface after a frame. *)
Lemma GreatWaveSurface_frame_on_grid_witness :
  exists (positions' : buffer) (y : R),
    positions' !! vertex_slot 3 1 2 1 = Some (Fin y) /\
    Rabs y <= 1.3 * Rabs (65 / 100).
Proof.
  destruct (GreatWaveSurface_frame_on_grid 25 2 1 2 1 (65 / 100) 30 (5 / 100))
    as [(p' & x & y & z & _ & _ & Hy & _ & _ & _ & _ & Hb) _];
    [lia|lra|lra|lia|lia|].
  exists p', y. split; [exact Hy|exact Hb].
Defined.

(** ** Rotation and drift *)

(** X19.  The galaxy and every orbital zone turn about Y by
    rotationSpeed times the time the frames took together, however
    that time is cut into frames; a group that is not mounted stays
    so. *)
Theorem rotation_accumulates :
  forall (rotationSpeed : R) (deltas : list R) (rotation_y : R),
    foldl (fun ref delta => Galaxy.useFrame rotationSpeed delta ref)
          (Some rotation_y) deltas
      = Some (rotation_y + rotationSpeed * total_time deltas) /\
    foldl (fun ref delta => OrbitalZone.useFrame rotationSpeed delta ref)
          (Some rotation_y) deltas
      = Some (rotation_y + rotationSpeed * total_time deltas) /\
    foldl (fun ref delta => Galaxy.useFrame rotationSpeed delta ref)
          None deltas = None /\
    foldl (fun ref delta => OrbitalZone.useFrame rotationSpeed delta ref)
          None deltas = None.
Proof.
  intros speed deltas. induction deltas as [|d deltas IH]; intros r.
  - cbn. rewrite Rmult_0_r, Rplus_0_r. auto.
  - destruct (IH (r + speed * d)) as (Hg & Hz & Hgn & Hzn).
    cbn [foldl Galaxy.useFrame OrbitalZone.useFrame total_time foldr].
    rewrite Hg, Hz. fold (total_time deltas).
    repeat split; try assumption; f_equal; ring.
Qed.

